(** * Energy-Trade dashboard: a shallow embedding of [app.py]

    The development follows the script top to bottom:

    - [Py]      the pieces of the Python runtime the script relies on
                (exceptions, [str.split], list slices, truthiness);
    - [Frame]   the table the script calls [df], with the pandas operations
                [clean_data] uses, and [clean_data] itself;
    - [Ui]      the effects of the script: what it shows to the user and what
                it sends over HTTP, as an exception-and-state monad;
    - [Ingest]  [process_uploaded_file];
    - [Submit]  [send_post_request] and [send_data_in_chunks];
    - [App]     [main];
    - [Scripted] and [Sample]: an endpoint that answers from a script, and
                small tables and readers, for the examples.

    The properties come after the definitions, in the order: chunked
    submission, file ingestion, cleaning.

    Numbers in a table are modelled as exact rationals: the rounding of
    float64 arithmetic is outside the model. The parsers of pandas and the
    remote endpoint are parameters. *)

From Stdlib Require Import String Ascii.
From Stdlib Require Import List ZArith QArith Qreduction Qround Bool Lia Arith.
Import ListNotations.

Set Implicit Arguments.

(* ================================================================== *)
(** ** Python runtime *)

Module Py.

(** The exceptions the script can meet. All of them are subclasses of
    Python's [Exception]. [HTTPError], [RequestError] and [JSONDecodeError]
    come from the [requests] library. *)
Inductive exn : Type :=
| ZeroDivisionError
| IndexError
| ValueError (msg : string)
| ParserError (msg : string)
| KeyError (key : string)
| HTTPError (status : Z)
| RequestError (msg : string)
| JSONDecodeError.

(** The result of running a piece of Python: a value or a raised exception. *)
Inductive outcome (A : Type) : Type :=
| Ret (a : A)
| Raise (e : exn).
Arguments Ret {A} a.
Arguments Raise {A} e.

(** [s.split(sep)] for a one-character separator: the result is never empty,
    and [''.split('.')] is [['']]. *)
Fixpoint split (sep : ascii) (s : string) : list string :=
  match s with
  | EmptyString => [EmptyString]
  | String c rest =>
      if Ascii.eqb c sep then EmptyString :: split sep rest
      else match split sep rest with
           | [] => [String c EmptyString]
           | seg :: segs => String c seg :: segs
           end
  end.

(** [l[-1]]: the last element, [IndexError] on the empty list. *)
Fixpoint index_last {A : Type} (l : list A) : outcome A :=
  match l with
  | [] => Raise IndexError
  | [x] => Ret x
  | _ :: rest => index_last rest
  end.

(** [sep.join(l)] for a one-character separator. *)
Fixpoint join (sep : ascii) (l : list string) : string :=
  match l with
  | [] => EmptyString
  | [x] => x
  | x :: rest => append x (String sep (join sep rest))
  end.

(** [sep not in s] *)
Fixpoint lacks (sep : ascii) (s : string) : bool :=
  match s with
  | EmptyString => true
  | String c rest => negb (Ascii.eqb c sep) && lacks sep rest
  end.

(** How a slice bound is clamped for a list of length [len]: a negative bound
    counts from the end. *)
Definition slice_bound (len i : Z) : Z :=
  if (i <? 0)%Z then Z.max 0 (i + len) else Z.min i len.

(** [l[start:stop]] *)
Definition slice {A : Type} (start stop : Z) (l : list A) : list A :=
  let len := Z.of_nat (length l) in
  let lo := slice_bound len start in
  let hi := slice_bound len stop in
  firstn (Z.to_nat (hi - lo)) (skipn (Z.to_nat lo) l).

(** [range(n)] *)
Definition range (n : Z) : list Z :=
  map Z.of_nat (seq 0 (Z.to_nat n)).

(** [a // b] and [a % b] on integers: floor division, the remainder has the
    sign of the divisor, and a zero divisor raises. *)
Definition floordiv (a b : Z) : outcome Z :=
  if (b =? 0)%Z then Raise ZeroDivisionError else Ret (a / b)%Z.

Definition modulo (a b : Z) : outcome Z :=
  if (b =? 0)%Z then Raise ZeroDivisionError else Ret (a mod b)%Z.

End Py.

(* ================================================================== *)
(** ** Tables *)

Module Frame.

(** A scalar of a table: a number, a string, or a missing value (NaN/None). *)
Inductive cell : Type :=
| Num (q : Q)
| Str (s : string)
| Missing.

Definition series := list cell.

(** A table is stored by column, as pandas does; [nrows] is the length of its
    index. Column labels are taken to be distinct, as the pandas readers
    produce them. *)
Record DataFrame : Type := mkDataFrame {
  nrows : nat;
  cols : list (string * series)
}.

Definition well_formed (df : DataFrame) : Prop :=
  Forall (fun c => length (snd c) = nrows df) (cols df).

Definition well_formedb (df : DataFrame) : bool :=
  forallb (fun c => Nat.eqb (length (snd c)) (nrows df)) (cols df).

Definition columns (df : DataFrame) : list string := map fst (cols df).

(** Equality of scalars as pandas sees it when it looks for duplicates:
    numbers by value, and a missing value equals a missing value. *)
Definition cell_eqb (a b : cell) : bool :=
  match a, b with
  | Num x, Num y => Qeq_bool x y
  | Str s, Str t => String.eqb s t
  | Missing, Missing => true
  | _, _ => false
  end.

Definition row := list cell.

Fixpoint row_eqb (r1 r2 : row) : bool :=
  match r1, r2 with
  | [], [] => true
  | a :: r1', b :: r2' => cell_eqb a b && row_eqb r1' r2'
  | _, _ => false
  end.

Definition row_at (df : DataFrame) (i : nat) : row :=
  map (fun c => nth i (snd c) Missing) (cols df).

Definition rows (df : DataFrame) : list row :=
  map (row_at df) (seq 0 (nrows df)).

(** [df.empty] *)
Definition empty (df : DataFrame) : bool :=
  Nat.eqb (nrows df) 0 || match cols df with [] => true | _ => false end.

(** [df.duplicated()] with [keep='first']: a row is marked when an equal row
    comes before it. *)
Fixpoint duplicated_from (seen rest : list row) : list bool :=
  match rest with
  | [] => []
  | r :: rest' => existsb (row_eqb r) seen :: duplicated_from (seen ++ [r]) rest'
  end.

Definition duplicated (df : DataFrame) : list bool :=
  duplicated_from [] (rows df).

(** Boolean indexing: the elements whose mask is [true]. *)
Fixpoint select {A : Type} (mask : list bool) (l : list A) : list A :=
  match mask, l with
  | m :: mask', x :: l' => if m then x :: select mask' l' else select mask' l'
  | _, _ => []
  end.

(** [df.drop_duplicates()]: pandas returns a copy of an empty table, and
    otherwise [df[~df.duplicated()]]. *)
Definition drop_duplicates (df : DataFrame) : DataFrame :=
  if empty df then df
  else
    let keep := map negb (duplicated df) in
    {| nrows := length (filter id keep);
       cols := map (fun c => (fst c, select keep (snd c))) (cols df) |}.

(** The mean of the values of a column that are not missing; none when there
    is no such value (pandas gives NaN). *)
Definition present (s : series) : list Q :=
  flat_map (fun c => match c with Num q => [q] | _ => [] end) s.

Definition mean (s : series) : option Q :=
  match present s with
  | [] => None
  | qs => Some (Qred (fold_right Qplus 0%Q qs / inject_Z (Z.of_nat (length qs))))
  end.

(** [s.fillna(v)]; filling with NaN changes nothing. *)
Definition fillna (v : option Q) (s : series) : series :=
  match v with
  | None => s
  | Some q => map (fun c => match c with Missing => Num q | _ => c end) s
  end.

(** A column selected by [select_dtypes(include='number')]. After the
    [to_numeric] loop a column has a numeric dtype exactly when it holds no
    string. *)
Definition is_number_dtype (s : series) : bool :=
  forallb (fun c => match c with Str _ => false | _ => true end) s.

(** What the last step of [clean_data] does to one column. *)
Definition fill_series (s : series) : series :=
  if is_number_dtype s then fillna (mean s) s else s.

Section Cleaning.

(** How pandas reads a string as a number: [None] when it cannot,
    [Some None] when the string stands for a missing value (the empty
    string, [nan]), [Some (Some q)] for the number [q]. *)
Variable parse_numeric : string -> option (option Q).

Definition coerce_cell (c : cell) : option cell :=
  match c with
  | Num q => Some (Num q)
  | Missing => Some Missing
  | Str s =>
      match parse_numeric s with
      | Some (Some q) => Some (Num q)
      | Some None => Some Missing
      | None => None
      end
  end.

Fixpoint coerce_all (s : series) : option series :=
  match s with
  | [] => Some []
  | c :: s' =>
      match coerce_cell c, coerce_all s' with
      | Some c', Some s'' => Some (c' :: s'')
      | _, _ => None
      end
  end.

(** [pd.to_numeric(s, errors='ignore')]: when a value does not parse, the
    input is returned. *)
Definition to_numeric_ignore (s : series) : series :=
  match coerce_all s with
  | Some s' => s'
  | None => s
  end.

(** [for col in df.columns: df[col] = pd.to_numeric(df[col], errors='ignore')] *)
Definition coerce_columns (df : DataFrame) : DataFrame :=
  {| nrows := nrows df;
     cols := map (fun c => (fst c, to_numeric_ignore (snd c))) (cols df) |}.

(** [numeric_cols = df.select_dtypes(include='number').columns]
    [df[numeric_cols] = df[numeric_cols].apply(lambda x: x.fillna(x.mean()))] *)
Definition fill_numeric_columns (df : DataFrame) : DataFrame :=
  {| nrows := nrows df;
     cols := map (fun c => if is_number_dtype (snd c)
                           then (fst c, fillna (mean (snd c)) (snd c))
                           else c) (cols df) |}.

Definition clean_data (df : DataFrame) : DataFrame :=
  fill_numeric_columns (coerce_columns (drop_duplicates df)).

(** What [clean_data] does to one column once the duplicates are gone. *)
Definition clean_series (s : series) : series :=
  fill_series (to_numeric_ignore s).

(** A scalar that cleaning has nothing to do on: a number, or a string that
    does not read as a number. *)
Definition settled_cell (c : cell) : bool :=
  match c with
  | Num _ => true
  | Str s => match parse_numeric s with None => true | Some _ => false end
  | Missing => false
  end.

Definition settled (df : DataFrame) : Prop :=
  Forall (fun c => forallb settled_cell (snd c) = true) (cols df).


End Cleaning.

(** A column by position. *)
Definition column (df : DataFrame) (j : nat) : series :=
  match nth_error (cols df) j with
  | Some c => snd c
  | None => []
  end.

(** No two rows at different positions are equal. *)
Definition distinct_rows (df : DataFrame) : Prop :=
  forall i j, (i < j < nrows df)%nat -> row_eqb (row_at df i) (row_at df j) = false.

(** The same for a list of rows: each row differs from the rows before it. *)
Fixpoint pairwise_distinct (l : list row) : Prop :=
  match l with
  | [] => True
  | r :: l' => Forall (fun k => row_eqb k r = false) l' /\ pairwise_distinct l'
  end.

(** One record per row, as [json.loads(df.to_json(orient='records'))] gives.
    [to_json] writes a number in decimal, a float with ten decimals by
    default, and [json.loads] reads it back: [json_number] is what a number
    becomes on the way. Strings come back as they are and a missing value
    comes back as [None]. *)
Definition record := list (string * cell).

Definition json_cell (json_number : Q -> Q) (c : cell) : cell :=
  match c with
  | Num q => Num (json_number q)
  | _ => c
  end.

Definition to_records (json_number : Q -> Q) (df : DataFrame) : list record :=
  map (fun r => combine (columns df) (map (json_cell json_number) r)) (rows df).

(** A reader of unsigned decimal numerals, for examples: the empty string is
    a missing value, a string of digits is its number, anything else does
    not parse. *)
Definition digit_of (c : ascii) : option Z :=
  let n := Z.of_nat (nat_of_ascii c) in
  if ((48 <=? n) && (n <=? 57))%Z then Some (n - 48)%Z else None.

Fixpoint digits_value (acc : Z) (s : string) : option Z :=
  match s with
  | EmptyString => Some acc
  | String c rest =>
      match digit_of c with
      | Some d => digits_value (10 * acc + d)%Z rest
      | None => None
      end
  end.

Definition parse_decimal (s : string) : option (option Q) :=
  match s with
  | EmptyString => Some None
  | _ => option_map (fun z => Some (inject_Z z)) (digits_value 0 s)
  end.

End Frame.

(* ================================================================== *)
(** ** Effects: what the script shows and what it sends *)

Module Ui.
Import Py Frame.

(** A value as [json.loads] and [response.json()] return it. JSON's [null]
    is Python's [None]. *)
Local Unset Elimination Schemes.
Inductive json : Type :=
| JNull
| JBool (b : bool)
| JNumber (q : Q)
| JString (s : string)
| JArray (items : list json)
| JObject (members : list (string * json)).
Local Set Elimination Schemes.

(** [bool(v)]: [None], [False], zero, and the empty string, list and dict
    are false. *)
Definition truthy (v : json) : bool :=
  match v with
  | JNull => false
  | JBool b => b
  | JNumber q => negb (Qeq_bool q 0)
  | JString s => negb (String.eqb s EmptyString)
  | JArray items => match items with [] => false | _ => true end
  | JObject members => match members with [] => false | _ => true end
  end.

(** What [requests.post] returns: the status line and the body, [None] when
    the body is not JSON. *)
Record response : Type := mkResponse {
  status_code : Z;
  body : option json
}.

(** The texts the script shows. *)
Inductive message : Type :=
| MsgException (e : exn)           (* st.error(error) *)
| MsgRequestError (e : exn)        (* f"Error: {e}" *)
| MsgChunkSubmitted (i n : Z)      (* f"Chunk {i}/{n} submitted successfully." *)
| MsgChunkFailed (i n : Z)         (* f"Failed to submit chunk {i}/{n}." *)
| MsgTotalRaw (n : nat)            (* f"Total records in raw data: {n}" *)
| MsgTotalCleaned (n : nat)        (* f"Total records in cleaned data: {n}" *)
| MsgRanSuccessfully.              (* "Application ran successfully!" *)

(** What an observer of a run sees, in order. *)
Inductive event : Type :=
| Markdown (html : string)
| Subheader (title : string)
| WriteFrame (df : DataFrame)
| Info (m : message)
| Error (m : message)
| Success (m : message)
| DownloadButton (df : DataFrame)
| Post (url : string) (payload : list record).

Section Monad.

(** The world outside the script: the network and the remote endpoint. *)
Variable World : Type.

Record state : Type := mkState {
  world : World;
  log : list event
}.

(** A computation reads and changes the state and returns or raises; what it
    did before raising stays done. *)
Definition M (A : Type) : Type := state -> outcome A * state.

Definition ret {A : Type} (a : A) : M A := fun s => (Ret a, s).

Definition raise {A : Type} (e : exn) : M A := fun s => (Raise e, s).

Definition bind {A B : Type} (m : M A) (k : A -> M B) : M B :=
  fun s =>
    match m s with
    | (Ret a, s') => k a s'
    | (Raise e, s') => (Raise e, s')
    end.

(** [try: body  except <catches> as e: handler e] *)
Definition try_except {A : Type} (catches : exn -> bool) (body : M A)
    (handler : exn -> M A) : M A :=
  fun s =>
    match body s with
    | (Ret a, s') => (Ret a, s')
    | (Raise e, s') => if catches e then handler e s' else (Raise e, s')
    end.

Definition lift {A : Type} (o : outcome A) : M A := fun s => (o, s).

Definition emit (e : event) : M unit :=
  fun s => (Ret tt, {| world := world s; log := log s ++ [e] |}).

End Monad.

Arguments ret {World A} a.
Arguments raise {World A} e.
Arguments lift {World A} o.
Arguments emit {World} e.

Declare Scope script_scope.
Delimit Scope script_scope with script.
Notation "x <- m ;; k" := (bind m (fun x => k))
  (at level 61, m at next level, right associativity) : script_scope.
Notation "m ;; k" := (bind m (fun _ => k))
  (at level 61, right associativity) : script_scope.

(** The chunks a run sent, in order. *)
Definition posts (l : list event) : list (list record) :=
  flat_map (fun e => match e with Post _ payload => [payload] | _ => [] end) l.

End Ui.

(* ================================================================== *)
(** ** File ingestion *)

Module Ingest.
Import Py Frame Ui.
Local Open Scope script_scope.
Local Open Scope string_scope.

Record uploaded_file : Type := mkFile {
  name : string;
  content : string
}.

(** The value of [file.name.split('.')[-1]]. *)
Definition file_extension (file : uploaded_file) : string :=
  last (split "." (name file)) "".

Section Ingest.

Variable World : Type.

(** [pd.read_csv] and [pd.read_json]: a table, or the exception the parser
    raises. *)
Variable read_csv : uploaded_file -> outcome DataFrame.
Variable read_json : uploaded_file -> outcome DataFrame.

(** [except Exception]: every modelled exception is an [Exception]. *)
Definition is_exception (e : exn) : bool := true.

Definition process_uploaded_file (file : uploaded_file) : M World (option DataFrame) :=
  try_except is_exception
    (file_extension <- lift (index_last (split "." (name file))) ;;
     if String.eqb file_extension "csv" then
       df <- lift (read_csv file) ;;
       ret (Some df)
     else if String.eqb file_extension "json" then
       df <- lift (read_json file) ;;
       ret (Some df)
     else
       raise (ValueError "Unsupported file format"))
    (fun error =>
       emit (Error (MsgException error)) ;;
       ret None).

(** The result of the handler: the error is shown and [None] is returned. *)
Definition reported (e : exn) (s : state World) : outcome (option DataFrame) * state World :=
  (Ret None, {| world := world s; log := log s ++ [Error (MsgException e)] |}).

End Ingest.

End Ingest.

(* ================================================================== *)
(** ** Chunked submission *)

Module Submit.
Import Py Frame Ui.
Local Open Scope script_scope.
Local Open Scope Z_scope.

Section Submit.

Variable World : Type.

(** [requests.post(url, json=chunk)]: the reply of the endpoint, or the
    exception raised on the way (connection error, timeout). *)
Variable http_post : World -> string -> list record -> outcome response * World.

(** Whether [requests.exceptions.JSONDecodeError] is a [RequestException]:
    it is from requests 2.27 on; before, [response.json()] raised a plain
    [ValueError]. *)
Variable json_error_is_request_exception : bool.

Definition is_request_exception (e : exn) : bool :=
  match e with
  | HTTPError _ | RequestError _ => true
  | JSONDecodeError => json_error_is_request_exception
  | _ => false
  end.

Definition requests_post (url : string) (chunk : list record) : M World response :=
  fun s =>
    let (r, w) := http_post (world s) url chunk in
    (r, {| world := w; log := log s ++ [Post url chunk] |}).

(** [response.raise_for_status()]: raises on 4xx and 5xx. *)
Definition raise_for_status (r : response) : M World unit :=
  if (400 <=? status_code r) && (status_code r <? 600)
  then raise (HTTPError (status_code r))
  else ret tt.

(** [response.json()] *)
Definition response_json (r : response) : M World json :=
  match body r with
  | Some v => ret v
  | None => raise JSONDecodeError
  end.

Definition send_post_request (url : string) (data_chunk : list record) : M World json :=
  try_except is_request_exception
    (response <- requests_post url data_chunk ;;
     raise_for_status response ;;
     response_json response)
    (fun e =>
       emit (Error (MsgRequestError e)) ;;
       ret JNull).

(** The body of [for i in range(num_chunks)], with its [break]. *)
Fixpoint submit_loop (url : string) (data : list record) (chunk_size num_chunks : Z)
    (indices : list Z) : M World unit :=
  match indices with
  | [] => ret tt
  | i :: rest =>
      let chunk := slice (i * chunk_size) ((i + 1) * chunk_size) data in
      response <- send_post_request url chunk ;;
      if truthy response then
        emit (Success (MsgChunkSubmitted (i + 1) num_chunks)) ;;
        submit_loop url data chunk_size num_chunks rest
      else
        emit (Error (MsgChunkFailed (i + 1) num_chunks))
  end.

Definition send_data_in_chunks (url : string) (data : list record) (chunk_size : Z)
    : M World unit :=
  let len := Z.of_nat (length data) in
  q <- lift (floordiv len chunk_size) ;;
  r <- lift (modulo len chunk_size) ;;
  let num_chunks := q + (if r >? 0 then 1 else 0) in
  submit_loop url data chunk_size num_chunks (range num_chunks).

End Submit.

(** The chunk the loop builds at index [i]. *)
Definition chunk_at (data : list record) (chunk_size i : Z) : list record :=
  slice (i * chunk_size) ((i + 1) * chunk_size) data.

(** The number of chunks the loop runs over, for a chunk size that is not
    zero. *)
Definition num_chunks (data : list record) (chunk_size : Z) : Z :=
  let len := Z.of_nat (length data) in
  len / chunk_size + (if len mod chunk_size >? 0 then 1 else 0).

(** The replies after which [send_post_request] returns a true value: no
    exception on the way, a status outside 4xx and 5xx, and a JSON body
    that Python counts as true. *)
Definition acknowledged (reply : outcome response) : bool :=
  match reply with
  | Ret r =>
      negb ((400 <=? status_code r) && (status_code r <? 600))
      && match body r with
         | Some v => truthy v
         | None => false
         end
  | Raise _ => false
  end.

(** The shapes the log of the loop can take over the indices it is given:
    a chunk sent and reported as submitted, then the rest; or a chunk sent
    and the loop left, after a caught error, after a false reply, or by an
    exception that is not caught. *)
Inductive loop_trace (url : string) (data : list record) (chunk_size n : Z)
    : list Z -> list event -> Prop :=
| trace_end :
    loop_trace url data chunk_size n [] []
| trace_submitted i rest l :
    loop_trace url data chunk_size n rest l ->
    loop_trace url data chunk_size n (i :: rest)
      (Post url (chunk_at data chunk_size i)
         :: Success (MsgChunkSubmitted (i + 1) n) :: l)
| trace_refused i rest e :
    loop_trace url data chunk_size n (i :: rest)
      [Post url (chunk_at data chunk_size i);
       Error (MsgRequestError e); Error (MsgChunkFailed (i + 1) n)]
| trace_false_reply i rest :
    loop_trace url data chunk_size n (i :: rest)
      [Post url (chunk_at data chunk_size i); Error (MsgChunkFailed (i + 1) n)]
| trace_raised i rest :
    loop_trace url data chunk_size n (i :: rest)
      [Post url (chunk_at data chunk_size i)].

(** The chunks of a run in which no submission fails. *)
Definition chunks (data : list record) (chunk_size : Z) : list (list record) :=
  map (chunk_at data chunk_size) (range (num_chunks data chunk_size)).

End Submit.

(* ================================================================== *)
(** ** The script *)

Module App.
Import Py Frame Ui Ingest Submit.
Local Open Scope script_scope.
Local Open Scope string_scope.

Section App.

Variable World : Type.
Variable read_csv : uploaded_file -> outcome DataFrame.
Variable read_json : uploaded_file -> outcome DataFrame.
Variable parse_numeric : string -> option (option Q).
Variable http_post : World -> string -> list record -> outcome response * World.
Variable json_error_is_request_exception : bool.

(** The two rendering stages; they read the cleaned table and may fail on a
    column that is not there. *)
Variable perform_eda : DataFrame -> M World unit.
Variable display_analysis_results : DataFrame -> M World unit.

(** What [to_json] and [json.loads] make of a number. *)
Variable json_number : Q -> Q.

Definition title_html : string :=
  "<h1 style='color: Green'>Energy Trade Analysis Worldwide</h1>".
Definition choose_html : string :=
  "<h2 style='color:PowderBlue;'>CHOOSE A FILE</h2>".
Definition url : string :=
  "https://7a49mfw9t0.execute-api.ap-south-1.amazonaws.com/myfunction".

(** [uploaded] is what [st.file_uploader] returns. *)
Definition main (uploaded : option uploaded_file) : M World unit :=
  emit (Markdown title_html) ;;
  emit (Markdown choose_html) ;;
  match uploaded with
  | None => ret tt
  | Some file =>
      df <- process_uploaded_file read_csv read_json file ;;
      match df with
      | None => ret tt
      | Some df =>
          emit (Subheader "Raw Data") ;;
          emit (WriteFrame df) ;;
          emit (Info (MsgTotalRaw (nrows df))) ;;
          let cleaned_data := clean_data parse_numeric df in
          emit (Subheader "Cleaned Data") ;;
          emit (WriteFrame cleaned_data) ;;
          emit (Info (MsgTotalCleaned (nrows cleaned_data))) ;;
          perform_eda cleaned_data ;;
          display_analysis_results cleaned_data ;;
          emit (DownloadButton cleaned_data) ;;
          let json_data := to_records json_number cleaned_data in
          send_data_in_chunks http_post json_error_is_request_exception
            url json_data 500 ;;
          emit (Success MsgRanSuccessfully)
      end
  end.

End App.

End App.

(* ================================================================== *)
(** ** A scripted endpoint, for examples *)

Module Scripted.
Import Py Frame Ui.
Local Open Scope string_scope.

(** The world is the list of replies still to come; when it runs out the
    connection fails. *)
Definition World : Type := list (outcome response).

Definition http_post (w : World) (url : string) (chunk : list record)
    : outcome response * World :=
  match w with
  | [] => (Raise (RequestError "connection refused"), [])
  | reply :: w' => (reply, w')
  end.

Definition start (w : World) : state World := {| world := w; log := [] |}.

Definition reply (status : Z) (b : option json) : outcome response :=
  Ret {| status_code := status; body := b |}.

Definition ok : outcome response :=
  reply 200 (Some (JObject [("message", JString "stored")])).

(** An endpoint that acknowledges every request. *)
Definition obliging_post (w : unit) (url : string) (chunk : list record)
    : outcome response * unit :=
  (ok, w).

(** An endpoint that cannot be reached. *)
Definition refusing_post (w : unit) (url : string) (chunk : list record)
    : outcome response * unit :=
  (Raise (RequestError "timed out"), w).

Definition a_record (k : Z) : record := [("trade_volume", Num (inject_Z k))].

Definition records (n : nat) : list record :=
  map (fun i => a_record (Z.of_nat i)) (seq 0 n).

End Scripted.

(* ================================================================== *)
(** ** Sample tables and readers, for examples *)

Module Sample.
Import Py Frame Ui Ingest.
Local Open Scope string_scope.

(** A reader that rejects what it is given, and one that reads any file as
    a table of one column and one row. *)
Definition rejecting_reader (file : uploaded_file) : outcome DataFrame :=
  Raise (ParserError "Error tokenizing data").

Definition one_cell_reader (file : uploaded_file) : outcome DataFrame :=
  Ret {| nrows := 1; cols := [("price", [Num 1%Q])] |}.

Definition silent (df : DataFrame) : M Scripted.World unit := ret tt.

(** A rendering of numbers with ten decimals, the nearest below a half
    and upwards from it. *)
Definition ten_decimals (q : Q) : Q :=
  Qred (Qfloor (q * inject_Z 10000000000 + (1 # 2)) # 10000000000).

(** One numeric column with a missing value. *)
Definition one_and_missing : DataFrame :=
  {| nrows := 2; cols := [("price", [Num 1%Q; Missing])] |}.

Definition one_two_missing : DataFrame :=
  {| nrows := 3; cols := [("price", [Num 1%Q; Num 2%Q; Missing])] |}.


(** A table with a repeated row, a column that does not read as numbers and
    a column of numerals. *)
Definition mixed : DataFrame :=
  {| nrows := 4;
     cols := [("energy_source", [Str "solar"; Str "wind"; Str "solar"; Str "coal"]);
              ("production_volume", [Str "100"; Str "50"; Str "100"; Str ""])] |}.

(** A table with a repeated row and nothing to coerce or fill. *)
Definition plain : DataFrame :=
  {| nrows := 3;
     cols := [("energy_source", [Str "solar"; Str "wind"; Str "solar"]);
              ("production_volume", [Num 100%Q; Num 50%Q; Num 100%Q])] |}.


(** A table for the renewable split: two rows of the two kinds, one whose
    type is written with a capital and one without a type. *)
Definition typed : DataFrame :=
  {| nrows := 4;
     cols := [("energy_source_type",
               [Str "renewable"; Str "non_renewable"; Str "Renewable"; Missing]);
              ("production_volume", [Num 10%Q; Num 20%Q; Num 40%Q; Num 80%Q])] |}.

(** Rendering stages over an endpoint without state: one that shows
    nothing, one that fails on a column that is not there. *)
Definition quiet (df : DataFrame) : M unit unit := ret tt.

Definition failing (df : DataFrame) : M unit unit :=
  raise (KeyError "energy_source").

End Sample.

(* ================================================================== *)
(** ** The stages of the script *)

Module Stage.
Import Py Frame Ui App.
Local Open Scope script_scope.
Local Open Scope string_scope.

Section Stage.

Variable World : Type.

(** The state of a run of [main] when the table has been read and cleaned
    and both tables have been shown: what is left is the rendering, the
    download button and the submission. *)
Definition shown (s : state World) (df cleaned : DataFrame) : state World :=
  {| world := world s;
     log := log s ++ [Markdown title_html; Markdown choose_html;
                      Subheader "Raw Data"; WriteFrame df;
                      Info (MsgTotalRaw (nrows df));
                      Subheader "Cleaned Data"; WriteFrame cleaned;
                      Info (MsgTotalCleaned (nrows cleaned))] |}.

(** The state when the download button has been shown. *)
Definition offered (s : state World) (cleaned : DataFrame) : state World :=
  {| world := world s; log := log s ++ [DownloadButton cleaned] |}.

(** The state when the last message has been shown. *)
Definition finished (s : state World) : state World :=
  {| world := world s; log := log s ++ [Success MsgRanSuccessfully] |}.

End Stage.

End Stage.

(* ================================================================== *)
(** ** Counting in a column *)

Module Tally.
Import Frame.

(** The number of missing values of a column. *)
Definition missing_count (s : series) : nat :=
  length (filter (fun c => match c with Missing => true | _ => false end) s).

(** The exact sum of the values that are there, the missing ones skipped. *)
Definition total (s : series) : Q := fold_right Qplus 0%Q (present s).

End Tally.

(* ================================================================== *)
(** ** The analyses *)

Module Aggregate.
Import Py Frame Tally.
Local Open Scope string_scope.

(** Sequencing of computations that return or raise. *)
Definition and_then {A B : Type} (o : outcome A) (k : A -> outcome B) : outcome B :=
  match o with
  | Ret a => k a
  | Raise e => Raise e
  end.

Declare Scope outcome_scope.
Delimit Scope outcome_scope with outcome.
Notation "x <- o ;; k" := (and_then o (fun x => k))
  (at level 61, o at next level, right associativity) : outcome_scope.
Local Open Scope outcome_scope.

(** [label in df.columns] *)
Definition has_column (df : DataFrame) (label : string) : bool :=
  existsb (String.eqb label) (columns df).

(** [df[label]]: the column, [KeyError] when there is none of this label. *)
Definition getitem (df : DataFrame) (label : string) : outcome series :=
  match find (fun c => String.eqb label (fst c)) (cols df) with
  | Some c => Ret (snd c)
  | None => Raise (KeyError label)
  end.

(** [df.groupby(keys)] looks its keys up one after the other and raises
    [KeyError] at the first that is no column. *)
Fixpoint key_columns (df : DataFrame) (keys : list string) : outcome (list series) :=
  match keys with
  | [] => Ret []
  | key :: rest =>
      c <- getitem df key ;;
      cs <- key_columns df rest ;;
      Ret (c :: cs)
  end.

(** [df.groupby(keys)[label]] *)
Definition value_column (df : DataFrame) (label : string) : outcome series :=
  match getitem df label with
  | Ret c => Ret c
  | Raise _ => Raise (KeyError ("Column not found: " ++ label))
  end.

Definition grouped_column (df : DataFrame) (keys : list string) (label : string)
    : outcome (list series * series) :=
  ks <- key_columns df keys ;;
  v <- value_column df label ;;
  Ret (ks, v).

(** [s == value] for a string [value], element by element. *)
Definition equals (s : series) (value : string) : list bool :=
  map (fun c => match c with Str t => String.eqb t value | _ => false end) s.

(** [df[mask]] for a boolean mask: the rows where the mask is true. *)
Definition loc (df : DataFrame) (mask : list bool) : DataFrame :=
  {| nrows := length (filter id mask);
     cols := map (fun c => (fst c, select mask (snd c))) (cols df) |}.

(** In the words of the specification: the production volumes of the rows
    whose type equals [kind], in the order of the rows. *)
Definition volumes_of_kind (kind : string) (types volumes : series) : series :=
  map snd (filter (fun row => match fst row with
                              | Str t => String.eqb t kind
                              | _ => false
                              end) (combine types volumes)).

(** The types that the renewable split counts: exactly [renewable] and
    [non_renewable]. *)
Definition counted (c : cell) : bool :=
  match c with
  | Str t => String.eqb t "renewable" || String.eqb t "non_renewable"
  | _ => false
  end.

Section Analyses.

(** What pandas computes from the key columns and the value column of a
    [groupby]: the sums by group, the means by group unstacked, and the
    result of [sort_values(ascending=False)]. They may raise, as on a
    column that cannot be added. *)
Variable grouped : Type.
Variable group_sum : list series -> series -> outcome grouped.
Variable group_mean_unstack : list series -> series -> outcome grouped.
Variable sort_values_descending : grouped -> outcome grouped.

(** [Series.sum] of a numeric column: the values that are there added up
    in the arithmetic of the column (floats are rounded, 64-bit integers
    wrap around), the missing ones skipped. *)
Variable numeric_sum : series -> cell.

(** [Series.sum] of a column that is not numeric. *)
Variable object_sum : series -> outcome cell.

(** [selected.sum()], where [selected] is a part of the column [whole]:
    the dtype is that of the whole column. *)
Definition series_sum (whole selected : series) : outcome cell :=
  if is_number_dtype whole then Ret (numeric_sum selected)
  else object_sum selected.

Definition sum_by (df : DataFrame) (keys : list string) (label : string)
    : outcome grouped :=
  kv <- grouped_column df keys label ;;
  group_sum (fst kv) (snd kv).

Definition calculate_production_volumes (df : DataFrame) : outcome grouped :=
  sum_by df ["energy_source"] "production_volume".

Definition analyze_consumption_patterns (df : DataFrame) : outcome grouped :=
  sum_by df ["region"; "sector"] "consumption_volume".

Definition identify_major_energy_sources (df : DataFrame)
    : outcome (grouped * grouped) :=
  production <- (sums <- sum_by df ["energy_source"] "production_volume" ;;
                 sort_values_descending sums) ;;
  consumption <- (sums <- sum_by df ["energy_source"] "consumption_volume" ;;
                  sort_values_descending sums) ;;
  Ret (production, consumption).

Definition analyze_import_export_dynamics (df : DataFrame)
    : outcome (grouped * grouped) :=
  imports <- (sums <- sum_by df ["country"] "import_volume" ;;
              sort_values_descending sums) ;;
  exports <- (sums <- sum_by df ["country"] "export_volume" ;;
              sort_values_descending sums) ;;
  Ret (imports, exports).

Definition calculate_price_trends (df : DataFrame) : outcome grouped :=
  kv <- grouped_column df ["date"; "energy_source"] "price" ;;
  group_mean_unstack (fst kv) (snd kv).

(** [df[df['energy_source_type'] == kind]['production_volume'].sum()] *)
Definition production_of (df : DataFrame) (kind : string) : outcome cell :=
  types <- getitem df "energy_source_type" ;;
  let selected := loc df (equals types kind) in
  whole <- getitem df "production_volume" ;;
  volumes <- getitem selected "production_volume" ;;
  series_sum whole volumes.

Definition compare_renewable_nonrenewable (df : DataFrame) : outcome (cell * cell) :=
  renewable <- production_of df "renewable" ;;
  non_renewable <- production_of df "non_renewable" ;;
  Ret (renewable, non_renewable).

Definition assess_geopolitical_impact (df : DataFrame) (event_column : string)
    : outcome grouped :=
  sum_by df [event_column] "trade_volume".

End Analyses.

(** The sum of a column in exact arithmetic, for examples. *)
Definition exact_sum (s : series) : cell := Num (Qred (total s)).

End Aggregate.

(* ================================================================== *)
(** ** What a run reports *)

Module Report.
Import Py Frame Ui.

(** The reports on chunks among the events of a run, in order. *)
Definition chunk_reports (l : list event) : list message :=
  flat_map (fun e => match e with
                     | Success (MsgChunkSubmitted i n) => [MsgChunkSubmitted i n]
                     | Error (MsgChunkFailed i n) => [MsgChunkFailed i n]
                     | _ => []
                     end) l.

End Report.

(* ================================================================== *)
(** * Properties *)

(** ** Slices and chunks *)

Section ChunkFacts.
Import Py Frame Ui Submit.
Local Open Scope Z_scope.

Lemma slice_window (A : Type) (l : list A) (c i : Z) :
  0 < c -> 0 <= i ->
  slice (i * c) ((i + 1) * c) l
  = firstn (Z.to_nat c) (skipn (Z.to_nat i * Z.to_nat c) l).
Proof.
  intros Hc Hi. unfold slice, slice_bound.
  assert (Hlo : (i * c <? 0) = false) by (apply Z.ltb_ge; nia).
  assert (Hhi : ((i + 1) * c <? 0) = false) by (apply Z.ltb_ge; nia).
  rewrite Hlo, Hhi.
  set (len := Z.of_nat (length l)).
  assert (Hmul : (Z.to_nat i * Z.to_nat c)%nat = Z.to_nat (i * c))
    by (rewrite Z2Nat.inj_mul; lia).
  rewrite Hmul.
  destruct (Z_le_gt_dec len (i * c)) as [Hout | Hin].
  - (* the window starts at or past the end *)
    rewrite (Z.min_r (i * c) len) by lia.
    rewrite (Z.min_r ((i + 1) * c) len) by nia.
    rewrite Z.sub_diag. simpl.
    rewrite (skipn_all2 l) by (subst len; lia).
    now rewrite firstn_nil.
  - rewrite (Z.min_l (i * c) len) by lia.
    destruct (Z_le_gt_dec ((i + 1) * c) len) as [Hfull | Hshort].
    + rewrite (Z.min_l ((i + 1) * c) len) by lia.
      f_equal. f_equal. lia.
    + rewrite (Z.min_r ((i + 1) * c) len) by lia.
      rewrite !firstn_all2; try reflexivity;
        rewrite length_skipn; subst len; lia.
Qed.

Lemma chunk_at_window (data : list record) (c i : Z) :
  0 < c -> 0 <= i ->
  chunk_at data c i = firstn (Z.to_nat c) (skipn (Z.to_nat i * Z.to_nat c) data).
Proof. intros; unfold chunk_at; now apply slice_window. Qed.

(** Cutting a list into [k] windows of width [c] and gluing them back. *)
Lemma concat_windows (A : Type) (c : nat) :
  (0 < c)%nat ->
  forall (k : nat) (l : list A),
    (length l <= k * c)%nat ->
    concat (map (fun i => firstn c (skipn (i * c) l)) (seq 0 k)) = l.
Proof.
  intros Hc k. induction k as [| k IH]; intros l Hlen.
  - simpl in *. destruct l; [reflexivity | simpl in Hlen; lia].
  - cbn [seq]. rewrite <- seq_shift. cbn [map concat]. rewrite map_map.
    rewrite Nat.mul_0_l. cbn [skipn].
    transitivity (firstn c l ++ skipn c l); [| apply firstn_skipn].
    f_equal.
    etransitivity; [| apply (IH (skipn c l))].
    + f_equal. apply map_ext. intro i.
      rewrite skipn_skipn. f_equal. f_equal. simpl. lia.
    + rewrite length_skipn. simpl in Hlen. lia.
Qed.

Lemma num_chunks_bounds (data : list record) (c : Z) :
  0 < c ->
  let n := num_chunks data c in
  let len := Z.of_nat (length data) in
  0 <= n /\ (n - 1) * c < len <= n * c.
Proof.
  intros Hc n len. subst n. unfold num_chunks. fold len.
  pose proof (Z.div_mod len c ltac:(lia)) as Hdm.
  pose proof (Z.mod_pos_bound len c Hc) as Hm.
  assert (0 <= len) by (subst len; lia).
  assert (0 <= len / c) by (apply Z.div_pos; lia).
  destruct (len mod c >? 0) eqn:E.
  - apply Z.gtb_lt in E. nia.
  - assert (len mod c = 0) by (rewrite Z.gtb_ltb in E; apply Z.ltb_ge in E; lia). nia.
Qed.

Lemma num_chunks_ceil (data : list record) (c : Z) :
  0 < c ->
  num_chunks data c = (Z.of_nat (length data) + c - 1) / c.
Proof.
  intros Hc.
  pose proof (num_chunks_bounds data Hc) as [Hn Hb]. cbv zeta in Hb.
  apply Z.div_unique with (r := Z.of_nat (length data) + c - 1 - c * num_chunks data c).
  - left. nia.
  - lia.
Qed.

Lemma chunks_concat (data : list record) (c : Z) :
  0 < c -> concat (chunks data c) = data.
Proof.
  intros Hc. unfold chunks, range. rewrite map_map.
  pose proof (num_chunks_bounds data Hc) as [Hn Hb]. cbv zeta in Hb.
  rewrite (map_ext _ (fun i => firstn (Z.to_nat c) (skipn (i * Z.to_nat c) data))).
  - apply concat_windows; [lia |]. nia.
  - intro i. rewrite chunk_at_window by lia. now rewrite Nat2Z.id.
Qed.

Lemma chunk_at_length (data : list record) (c i : Z) :
  0 < c -> 0 <= i ->
  Z.of_nat (length (chunk_at data c i))
  = Z.min c (Z.max 0 (Z.of_nat (length data) - i * c)).
Proof.
  intros Hc Hi. rewrite chunk_at_window by assumption.
  rewrite length_firstn, length_skipn. nia.
Qed.

Lemma chunks_length (data : list record) (c : Z) :
  0 < c -> Z.of_nat (length (chunks data c)) = num_chunks data c.
Proof.
  intros Hc. unfold chunks, range. rewrite !length_map, length_seq.
  pose proof (num_chunks_bounds data Hc) as [Hn _]. lia.
Qed.

End ChunkFacts.

(** ** Runs of the submission loop *)

Section SubmitFacts.
Import Py Frame Ui Submit.
Local Open Scope Z_scope.

Variable World : Type.
Variable http_post : World -> string -> list record -> outcome response * World.
Variable json_error_is_request_exception : bool.

Local Notation "'send_post'" :=
  (send_post_request http_post json_error_is_request_exception).

(** What one call of [send_post_request] leaves in the log: the request, and
    the error it showed when it caught one. It returns a true value only
    when it caught nothing. *)
Lemma send_post_request_log (url : string) (chunk : list record) (s : state World) :
  let r := send_post url chunk s in
  (exists v, fst r = Ret v /\ truthy v = true
             /\ log (snd r) = log s ++ [Post url chunk])
  \/ (exists v, fst r = Ret v /\ truthy v = false
                /\ log (snd r) = log s ++ [Post url chunk])
  \/ (exists e, fst r = Ret JNull
                /\ log (snd r) = log s ++ [Post url chunk; Error (MsgRequestError e)])
  \/ (exists e, fst r = Raise e /\ log (snd r) = log s ++ [Post url chunk]).
Proof.
  unfold send_post_request, try_except, bind, requests_post.
  destruct (http_post (world s) url chunk) as [[resp | e] w]; cbn.
  - unfold raise_for_status.
    destruct ((400 <=? status_code resp) && (status_code resp <? 600)); cbn.
    + right; right; left. eexists. split; [reflexivity |].
      cbn. now rewrite <- app_assoc.
    + unfold response_json. destruct (body resp) as [v |]; cbn.
      * destruct (truthy v) eqn:T; [left | right; left];
          exists v; repeat split; assumption.
      * destruct json_error_is_request_exception; cbn.
        -- right; right; left. eexists. split; [reflexivity |].
           cbn. now rewrite <- app_assoc.
        -- right; right; right. eexists. split; reflexivity.
  - destruct (is_request_exception json_error_is_request_exception e); cbn.
    + right; right; left. eexists. split; [reflexivity |].
      cbn. now rewrite <- app_assoc.
    + right; right; right. eexists. split; reflexivity.
Qed.

Variable url : string.
Variable data : list record.
Variable chunk_size : Z.
Variable n : Z.

Local Notation "'loop'" :=
  (submit_loop http_post json_error_is_request_exception url data chunk_size n).
Local Notation "'chunk'" := (chunk_at data chunk_size).
Local Notation "'trace'" := (loop_trace url data chunk_size n).

Lemma submit_loop_trace (indices : list Z) :
  forall s, exists l,
    log (snd (loop indices s)) = log s ++ l /\ trace indices l.
Proof.
  induction indices as [| i rest IH]; intros s.
  - exists []. cbn. rewrite app_nil_r. split; [reflexivity | constructor].
  - cbn [submit_loop]. fold (chunk i). unfold bind at 1.
    pose proof (send_post_request_log url (chunk i) s) as H. cbv zeta in H.
    destruct (send_post url (chunk i) s) as [o s1]. cbn [fst snd] in H.
    destruct H as [(v & -> & T & L) | [(v & -> & T & L) | [(e & -> & L) | (e & -> & L)]]].
    + rewrite T. unfold bind, emit. cbn.
      destruct (IH {| world := world s1;
                      log := log s1 ++ [Success (MsgChunkSubmitted (i + 1) n)] |})
        as (l & Hl & Ht).
      exists (Post url (chunk i) :: Success (MsgChunkSubmitted (i + 1) n) :: l).
      split; [| now constructor].
      rewrite Hl. cbn. rewrite L. now rewrite <- !app_assoc.
    + rewrite T. unfold emit. cbn. eexists. split; [| apply trace_false_reply].
      rewrite L. now rewrite <- app_assoc.
    + unfold emit. cbn. eexists. split; [| apply trace_refused].
      rewrite L. now rewrite <- app_assoc.
    + cbn. eexists. split; [| apply trace_raised]. exact L.
Qed.

(** The requests of a trace are the chunks of a prefix of the indices. *)
Lemma loop_trace_posts (indices : list Z) (l : list event) :
  trace indices l ->
  exists k, (k <= length indices)%nat /\ posts l = map chunk (firstn k indices).
Proof.
  induction 1 as [| i rest l _ (k & Hk & IH) | i rest e | i rest | i rest].
  - exists 0%nat. split; [lia | reflexivity].
  - exists (S k). split; [cbn; lia |].
    unfold posts in *. cbn. now rewrite IH.
  - exists 1%nat. split; [cbn; lia | reflexivity].
  - exists 1%nat. split; [cbn; lia | reflexivity].
  - exists 1%nat. split; [cbn; lia | reflexivity].
Qed.

(** A reported failure is the last thing in a trace, and the requests up to
    it are those of the indices up to the chunk that failed. *)
Lemma loop_trace_failed (indices : list Z) (l : list event) :
  trace indices l ->
  forall l1 l2 j m, l = l1 ++ Error (MsgChunkFailed j m) :: l2 ->
    l2 = [] /\ m = n
    /\ exists k, nth_error indices k = Some (j - 1)
                 /\ posts l = map chunk (firstn (S k) indices).
Proof.
  induction 1 as [| i rest l Ht IH | i rest e | i rest | i rest];
    intros l1 l2 j m E.
  - destruct l1; discriminate.
  - destruct l1 as [| a [| b l1]]; try discriminate.
    cbn in E. injection E as _ _ E.
    destruct (IH _ _ _ _ E) as (-> & -> & k & Hk & Hp).
    repeat split; try reflexivity.
    exists (S k). split; [exact Hk |].
    unfold posts in *. cbn. now rewrite Hp.
  - destruct l1 as [| a [| b [| c l1]]]; try discriminate.
    + cbn in E. injection E as _ _ Ej Em El.
      split; [now symmetry |]. split; [now symmetry |].
      exists 0%nat. split; [cbn; f_equal; lia | reflexivity].
    + cbn in E. injection E as _ _ _ E. destruct l1; discriminate.
  - destruct l1 as [| a [| b l1]]; try discriminate.
    + cbn in E. injection E as _ Ej Em El.
      split; [now symmetry |]. split; [now symmetry |].
      exists 0%nat. split; [cbn; f_equal; lia | reflexivity].
    + cbn in E. injection E as _ _ E. destruct l1; discriminate.
  - destruct l1 as [| a l1]; try discriminate.
    cbn in E. injection E as _ E. destruct l1; discriminate.
Qed.

End SubmitFacts.

Section SubmitRuns.
Import Py Frame Ui Submit.
Local Open Scope Z_scope.

Variable World : Type.
Variable http_post : World -> string -> list record -> outcome response * World.
Variable json_error_is_request_exception : bool.

Local Notation "'send_post'" :=
  (send_post_request http_post json_error_is_request_exception).
Local Notation "'send_chunks'" :=
  (send_data_in_chunks http_post json_error_is_request_exception).

(** With a chunk size that is not zero the function is its loop over
    [range(num_chunks)]. *)
Lemma send_data_in_chunks_loop (url : string) (data : list record) (c : Z)
    (s : state World) :
  c <> 0 ->
  send_chunks url data c s
  = submit_loop http_post json_error_is_request_exception url data c
      (num_chunks data c) (range (num_chunks data c)) s.
Proof.
  intros Hc. unfold send_data_in_chunks, floordiv, modulo, bind, lift.
  apply Z.eqb_neq in Hc. rewrite Hc. reflexivity.
Qed.

Lemma send_data_in_chunks_zero (url : string) (data : list record)
    (s : state World) :
  send_chunks url data 0 s = (Raise ZeroDivisionError, s).
Proof. reflexivity. Qed.

Lemma send_post_request_acknowledged (url : string) (chunk : list record)
    (s : state World) :
  acknowledged (fst (http_post (world s) url chunk)) = true ->
  exists v,
    truthy v = true
    /\ send_post url chunk s
       = (Ret v, {| world := snd (http_post (world s) url chunk);
                    log := log s ++ [Post url chunk] |}).
Proof.
  unfold send_post_request, try_except, bind, requests_post, acknowledged.
  destruct (http_post (world s) url chunk) as [[resp | e] w]; cbn;
    [| discriminate].
  unfold raise_for_status.
  destruct ((400 <=? status_code resp) && (status_code resp <? 600)); cbn;
    [discriminate |].
  unfold response_json. destruct (body resp) as [v |]; cbn; [| discriminate].
  intros T. exists v. split; [exact T | reflexivity].
Qed.

(** [send_post_request] returns a true value exactly on an acknowledged
    reply: the test [if response:] of the loop sees nothing else. *)
Lemma send_post_request_truthy (url : string) (chunk : list record)
    (s : state World) :
  match fst (send_post url chunk s) with
  | Ret v => truthy v
  | Raise _ => false
  end
  = acknowledged (fst (http_post (world s) url chunk)).
Proof.
  unfold send_post_request, try_except, bind, requests_post, acknowledged.
  destruct (http_post (world s) url chunk) as [[resp | e] w]; cbn.
  - unfold raise_for_status.
    destruct ((400 <=? status_code resp) && (status_code resp <? 600)); cbn;
      [reflexivity |].
    unfold response_json. destruct (body resp) as [v |]; cbn; [reflexivity |].
    now destruct json_error_is_request_exception.
  - now destruct (is_request_exception json_error_is_request_exception e).
Qed.

(** When every reply is acknowledged the loop goes through all its indices. *)
Lemma submit_loop_all_acknowledged (url : string) (data : list record) (c n : Z) :
  (forall w u ch, acknowledged (fst (http_post w u ch)) = true) ->
  forall indices s, exists s',
    submit_loop http_post json_error_is_request_exception
      url data c n indices s = (Ret tt, s')
    /\ posts (log s') = posts (log s) ++ map (chunk_at data c) indices.
Proof.
  intros Hack indices. induction indices as [| i rest IH]; intros s.
  - exists s. cbn. now rewrite app_nil_r.
  - cbn [submit_loop]. fold (chunk_at data c i). unfold bind at 1.
    destruct (send_post_request_acknowledged url (chunk_at data c i) s (Hack _ _ _))
      as (v & T & ->).
    rewrite T. unfold bind, emit. cbn [world log].
    match goal with |- context [submit_loop _ _ _ _ _ _ _ ?s1] =>
      destruct (IH s1) as (s' & Hr & Hp) end.
    exists s'. split; [exact Hr |].
    rewrite Hp. cbn [log]. unfold posts. rewrite !flat_map_app. cbn.
    rewrite !app_nil_r. now rewrite <- app_assoc.
Qed.

Lemma nth_error_range (n : Z) (k : nat) (j : Z) :
  nth_error (range n) k = Some j -> j = Z.of_nat k.
Proof.
  unfold range. intros H.
  rewrite nth_error_map in H.
  destruct (nth_error (seq 0 (Z.to_nat n)) k) as [x |] eqn:E; [| discriminate].
  cbn in H. injection H as <-.
  assert (Hk : (k < length (seq 0 (Z.to_nat n)))%nat)
    by (apply nth_error_Some; congruence).
  apply nth_error_nth with (d := 0%nat) in E.
  rewrite length_seq in Hk. rewrite seq_nth in E by exact Hk. lia.
Qed.

End SubmitRuns.

(** ** Chunked submission: the claims *)

Section SubmitClaims.
Import Py Frame Ui Submit.
Local Open Scope Z_scope.

(** C1. For a positive chunk size the loop of [send_data_in_chunks] cuts
    the records into consecutive chunks: gluing the chunks together in
    order gives the records back, there are ceil(len(data) / chunk_size) of
    them, none is empty or longer than the chunk size, all but the last are
    exactly of the chunk size, and a run in which every reply is
    acknowledged sends exactly these chunks in this order. *)
Theorem send_data_in_chunks_partition (data : list record) (chunk_size : Z) :
  0 < chunk_size ->
  let n := num_chunks data chunk_size in
  concat (chunks data chunk_size) = data
  /\ Z.of_nat (length (chunks data chunk_size)) = n
  /\ n = (Z.of_nat (length data) + chunk_size - 1) / chunk_size
  /\ (forall i, 0 <= i < n ->
        0 < Z.of_nat (length (chunk_at data chunk_size i)) <= chunk_size)
  /\ (forall i, 0 <= i < n - 1 ->
        Z.of_nat (length (chunk_at data chunk_size i)) = chunk_size)
  /\ (forall (World : Type)
        (http_post : World -> string -> list record -> outcome response * World)
        (json_error_is_request_exception : bool) (url : string) (s : state World),
        (forall w u ch, acknowledged (fst (http_post w u ch)) = true) ->
        exists s',
          send_data_in_chunks http_post json_error_is_request_exception
            url data chunk_size s = (Ret tt, s')
          /\ posts (log s') = posts (log s) ++ chunks data chunk_size).
Proof.
  intros Hc n.
  pose proof (num_chunks_bounds data Hc) as [Hn Hb]. cbv zeta in Hb. fold n in Hn, Hb.
  split; [now apply chunks_concat |].
  split; [now apply chunks_length |].
  split; [now apply num_chunks_ceil |].
  split; [| split].
  - intros i Hi. rewrite chunk_at_length by lia. nia.
  - intros i Hi. rewrite chunk_at_length by lia. nia.
  - intros World http_post flag url s Hack.
    rewrite send_data_in_chunks_loop by lia.
    apply submit_loop_all_acknowledged. exact Hack.
Qed.

(** C2. A run of [send_data_in_chunks] sends a prefix of the chunks, in
    order, each once; when it reports the failure of a chunk nothing at all
    follows the report, and the chunks sent are those up to the one that
    failed. With 1200 records and a chunk size of 500 the chunks have 500,
    500 and 200 records, and when the second is reported as failed only the
    first two were sent. *)
Theorem send_data_in_chunks_fail_fast (World : Type)
    (http_post : World -> string -> list record -> outcome response * World)
    (json_error_is_request_exception : bool)
    (url : string) (data : list record) (chunk_size : Z) (s : state World) :
  exists l,
    log (snd (send_data_in_chunks http_post json_error_is_request_exception
                url data chunk_size s)) = log s ++ l
    /\ (exists k, posts l = firstn k (chunks data chunk_size))
    /\ (forall l1 l2 j m, l = l1 ++ Error (MsgChunkFailed j m) :: l2 ->
          l2 = [] /\ posts l = firstn (Z.to_nat j) (chunks data chunk_size))
    /\ (length data = 1200%nat -> chunk_size = 500 ->
          map (@length record) (chunks data chunk_size) = [500; 500; 200]%nat
          /\ (In (Error (MsgChunkFailed 2 3)) l ->
                posts l = [chunk_at data 500 0; chunk_at data 500 1])).
Proof.
  assert (General : exists l,
    log (snd (send_data_in_chunks http_post json_error_is_request_exception
                url data chunk_size s)) = log s ++ l
    /\ (exists k, posts l = firstn k (chunks data chunk_size))
    /\ (forall l1 l2 j m, l = l1 ++ Error (MsgChunkFailed j m) :: l2 ->
          l2 = [] /\ posts l = firstn (Z.to_nat j) (chunks data chunk_size))).
  { destruct (Z.eq_dec chunk_size 0) as [-> | Hc].
    - exists []. rewrite send_data_in_chunks_zero. cbn. rewrite app_nil_r.
      split; [reflexivity |]. split; [exists 0%nat; reflexivity |].
      intros l1 l2 j m E. destruct l1; discriminate.
    - rewrite send_data_in_chunks_loop by exact Hc.
      destruct (submit_loop_trace http_post json_error_is_request_exception
                  url data chunk_size (num_chunks data chunk_size)
                  (range (num_chunks data chunk_size)) s) as (l & Hl & Ht).
      exists l. split; [exact Hl |]. split.
      + destruct (loop_trace_posts Ht) as (k & _ & Hp).
        exists k. rewrite Hp. unfold chunks. now rewrite firstn_map.
      + intros l1 l2 j m E.
        pose proof (loop_trace_failed Ht) as HF.
        destruct (HF l1 l2 j m E) as (H2 & _ & k & Hk & Hp).
        split; [exact H2 |].
        rewrite Hp. apply nth_error_range in Hk.
        replace (Z.to_nat j) with (S k) by lia.
        unfold chunks. now rewrite firstn_map. }
  destruct General as (l & Hl & Hprefix & Hfail).
  exists l. split; [exact Hl |]. split; [exact Hprefix |]. split; [exact Hfail |].
  intros Hlen ->.
  assert (Hn : num_chunks data 500 = 3)
    by (unfold num_chunks; rewrite Hlen; reflexivity).
  assert (Hchunks : chunks data 500
                    = [chunk_at data 500 0; chunk_at data 500 1; chunk_at data 500 2])
    by (unfold chunks; rewrite Hn; reflexivity).
  split.
  - rewrite Hchunks. cbn [map].
    assert (Hsize : forall i, 0 <= i ->
              length (chunk_at data 500 i)
              = Z.to_nat (Z.min 500 (Z.max 0 (1200 - i * 500)))).
    { intros i Hi. apply Nat2Z.inj. rewrite chunk_at_length by lia.
      rewrite Hlen. lia. }
    rewrite !Hsize by lia. reflexivity.
  - intros Hin. apply in_split in Hin. destruct Hin as (l1 & l2 & E).
    destruct (Hfail _ _ _ _ E) as [_ Hp]. rewrite Hp, Hchunks. reflexivity.
Qed.

End SubmitClaims.

Section SubmitExamples.
Import Py Frame Ui Submit.
Local Open Scope Z_scope.
Local Open Scope string_scope.

Lemma send_data_in_chunks_partition_witness :
  concat (chunks (Scripted.records 7) 3) = Scripted.records 7
  /\ exists s',
       send_data_in_chunks Scripted.obliging_post true App.url
         (Scripted.records 7) 3 {| world := tt; log := [] |} = (Ret tt, s')
       /\ posts (log s') = chunks (Scripted.records 7) 3.
Proof.
  destruct (@send_data_in_chunks_partition (Scripted.records 7) 3 eq_refl)
    as (Hconcat & _ & _ & _ & _ & Hrun).
  split; [exact Hconcat |].
  apply (Hrun unit Scripted.obliging_post true App.url {| world := tt; log := [] |}).
  intros w u ch. reflexivity.
Defined.

Lemma send_data_in_chunks_fail_fast_witness :
  posts (log (snd (send_data_in_chunks Scripted.http_post true App.url
                     (Scripted.records 1200) 500
                     (Scripted.start [Scripted.ok; Scripted.reply 503 None; Scripted.ok]))))
  = [chunk_at (Scripted.records 1200) 500 0; chunk_at (Scripted.records 1200) 500 1].
Proof.
  destruct (send_data_in_chunks_fail_fast Scripted.http_post true App.url
              (Scripted.records 1200) 500
              (Scripted.start [Scripted.ok; Scripted.reply 503 None; Scripted.ok]))
    as (l & Hl & _ & _ & Hscenario).
  destruct (Hscenario eq_refl eq_refl) as [_ Hsecond].
  cbn [Scripted.start log app] in Hl. rewrite Hl.
  apply Hsecond. rewrite <- Hl.
  vm_compute. do 4 right. left. reflexivity.
Defined.

(** C3, at the inputs where the code departs from it. The endpoint answers
    the first of two chunks with status 200 and a body that Python counts as
    false: the chunk is reported as failed and the second chunk is not sent.
    A 200 whose body is not JSON is reported as failed as well when
    [requests] counts the decoding error as a [RequestException], and
    otherwise the exception leaves the function. *)
Theorem send_data_in_chunks_false_body :
  Forall (fun b =>
            send_data_in_chunks Scripted.http_post true App.url
              (Scripted.records 2) 1
              (Scripted.start [Scripted.reply 200 (Some b); Scripted.ok])
            = (Ret tt,
               {| world := [Scripted.ok];
                  log := [Post App.url [Scripted.a_record 0];
                          Error (MsgChunkFailed 1 2)] |}))
         [JObject []; JArray []; JNull; JBool false; JNumber 0%Q; JString ""]
  /\ send_data_in_chunks Scripted.http_post true App.url
       (Scripted.records 2) 1
       (Scripted.start [Scripted.reply 200 None; Scripted.ok])
     = (Ret tt,
        {| world := [Scripted.ok];
           log := [Post App.url [Scripted.a_record 0];
                   Error (MsgRequestError JSONDecodeError);
                   Error (MsgChunkFailed 1 2)] |})
  /\ send_data_in_chunks Scripted.http_post false App.url
       (Scripted.records 2) 1
       (Scripted.start [Scripted.reply 200 None; Scripted.ok])
     = (Raise JSONDecodeError,
        {| world := [Scripted.ok];
           log := [Post App.url [Scripted.a_record 0]] |}).
Proof.
  split; [| split]; [repeat constructor | reflexivity | reflexivity].
Qed.

End SubmitExamples.

(** ** File names and ingestion *)

Section SplitFacts.
Import Py.
Local Open Scope string_scope.

Variable sep : ascii.

Lemma split_not_nil (s : string) : split sep s <> [].
Proof.
  destruct s as [| c rest]; cbn; [discriminate |].
  destruct (Ascii.eqb c sep); [discriminate |].
  destruct (split sep rest); discriminate.
Qed.

Lemma join_cons (x : string) (l : list string) :
  l <> [] -> join sep (x :: l) = x ++ String sep (join sep l).
Proof. destruct l; [congruence | reflexivity]. Qed.

(** Splitting loses nothing: joining the segments gives the string back. *)
Lemma join_split (s : string) : join sep (split sep s) = s.
Proof.
  induction s as [| c rest IH]; [reflexivity |].
  cbn [split]. destruct (Ascii.eqb c sep) eqn:E.
  - apply Ascii.eqb_eq in E. subst c.
    rewrite join_cons by apply split_not_nil. cbn. now rewrite IH.
  - pose proof (split_not_nil rest) as Hne.
    destruct (split sep rest) as [| seg segs]; [congruence |].
    destruct segs as [| seg' segs].
    + cbn in *. now rewrite IH.
    + rewrite join_cons by discriminate.
      rewrite join_cons in IH by discriminate.
      cbn [append]. now rewrite IH.
Qed.

(** No segment holds the separator. *)
Lemma split_lacks (s : string) : Forall (fun seg => lacks sep seg = true) (split sep s).
Proof.
  induction s as [| c rest IH]; cbn [split].
  - repeat constructor.
  - destruct (Ascii.eqb c sep) eqn:E.
    + constructor; [reflexivity | exact IH].
    + destruct (split sep rest) as [| seg segs].
      * constructor; [cbn; now rewrite E | constructor].
      * inversion IH; subst. constructor; [cbn; rewrite E; assumption | assumption].
Qed.

Lemma index_last_last (A : Type) (l : list A) (d : A) :
  l <> [] -> index_last l = Ret (last l d).
Proof.
  induction l as [| x l IH]; [congruence |]. intros _.
  destruct l as [| y l]; [reflexivity |].
  change (index_last (x :: y :: l)) with (index_last (y :: l)).
  change (last (x :: y :: l) d) with (last (y :: l) d).
  apply IH. discriminate.
Qed.

Lemma join_snoc (l : list string) (x : string) :
  l <> [] -> join sep (l ++ [x]) = join sep l ++ String sep x.
Proof.
  induction l as [| y l IH]; [congruence |]. intros _.
  destruct l as [| z l].
  - reflexivity.
  - change ((y :: z :: l) ++ [x])%list with (y :: ((z :: l) ++ [x]))%list.
    rewrite join_cons by (destruct l; discriminate).
    rewrite IH by discriminate.
    rewrite (@join_cons y (z :: l)) by discriminate.
    generalize (join sep (z :: l)). intro t.
    clear. induction y as [| c y IHy]; cbn; [reflexivity | now rewrite IHy].
Qed.

(** The last segment is what follows the last separator, or the whole
    string when there is no separator. *)
Lemma last_segment_spec (s : string) :
  let ext := last (split sep s) "" in
  index_last (split sep s) = Ret ext
  /\ lacks sep ext = true
  /\ (s = ext \/ exists stem, s = stem ++ String sep ext).
Proof.
  intros ext.
  pose proof (split_not_nil s) as Hne.
  pose proof (split_lacks s) as Hl.
  pose proof (join_split s) as Hj.
  split; [now apply index_last_last |].
  destruct (exists_last Hne) as (segs & e & Hs).
  assert (He : ext = e) by (subst ext; rewrite Hs; apply last_last).
  rewrite Hs in Hl, Hj. rewrite He.
  split.
  - apply Forall_app in Hl. destruct Hl as [_ Hl]. now inversion Hl.
  - destruct segs as [| x segs].
    + left. now rewrite <- Hj.
    + right. exists (join sep (x :: segs)).
      rewrite <- Hj. apply join_snoc. discriminate.
Qed.

End SplitFacts.

Section IngestFacts.
Import Py Frame Ui Ingest.
Local Open Scope string_scope.

Variable World : Type.
Variable read_csv : uploaded_file -> outcome DataFrame.
Variable read_json : uploaded_file -> outcome DataFrame.

Lemma process_uploaded_file_run (file : uploaded_file) (s : state World) :
  process_uploaded_file read_csv read_json file s
  = if String.eqb (file_extension file) "csv" then
      match read_csv file with
      | Ret df => (Ret (Some df), s)
      | Raise e => reported e s
      end
    else if String.eqb (file_extension file) "json" then
      match read_json file with
      | Ret df => (Ret (Some df), s)
      | Raise e => reported e s
      end
    else reported (ValueError "Unsupported file format") s.
Proof.
  unfold process_uploaded_file, try_except, bind, lift, reported.
  destruct (last_segment_spec "." (name file)) as [Hlast _]. cbv zeta in Hlast.
  rewrite Hlast. fold (file_extension file).
  destruct (String.eqb (file_extension file) "csv").
  - destruct (read_csv file); reflexivity.
  - destruct (String.eqb (file_extension file) "json").
    + destruct (read_json file); reflexivity.
    + reflexivity.
Qed.

Lemma state_eta (s : state World) :
  s = {| world := world s; log := log s ++ [] |}.
Proof. destruct s. cbn. now rewrite app_nil_r. Qed.

End IngestFacts.

Section IngestClaims.
Import Py Frame Ui Ingest App.
Local Open Scope string_scope.

(** C9. [process_uploaded_file] never raises: it returns a table and shows
    nothing, or it returns [None] after showing one error. It returns [None]
    when the extension is neither [csv] nor [json] and when the parser it
    chose raises, and on [None] the caller [main] stops there: after the
    error nothing more is shown or sent. *)
Theorem process_uploaded_file_never_raises (World : Type)
    (read_csv read_json : uploaded_file -> outcome DataFrame)
    (file : uploaded_file) :
  exists (r : option DataFrame) (l : list event),
    (forall s : state World,
        process_uploaded_file read_csv read_json file s
        = (Ret r, {| world := world s; log := log s ++ l |}))
    /\ (forall df, r = Some df -> l = [])
    /\ (r = None -> exists e, l = [Error (MsgException e)])
    /\ (file_extension file <> "csv" -> file_extension file <> "json" ->
          r = None
          /\ l = [Error (MsgException (ValueError "Unsupported file format"))])
    /\ (forall e, file_extension file = "csv" -> read_csv file = Raise e ->
          r = None /\ l = [Error (MsgException e)])
    /\ (forall e, file_extension file = "json" -> read_json file = Raise e ->
          r = None /\ l = [Error (MsgException e)])
    /\ (r = None ->
          forall parse_numeric http_post json_error_is_request_exception
                 perform_eda display_analysis_results json_number
                 (s : state World),
            main read_csv read_json parse_numeric http_post
              json_error_is_request_exception perform_eda
              display_analysis_results json_number (Some file) s
            = (Ret tt,
               {| world := world s;
                  log := log s ++ Markdown title_html :: Markdown choose_html :: l |})).
Proof.
  assert (Hmain : forall l,
    (forall s : state World,
        process_uploaded_file read_csv read_json file s
        = (Ret None, {| world := world s; log := log s ++ l |})) ->
    forall parse_numeric http_post json_error_is_request_exception
           perform_eda display_analysis_results json_number (s : state World),
      main read_csv read_json parse_numeric http_post
        json_error_is_request_exception perform_eda
        display_analysis_results json_number (Some file) s
      = (Ret tt,
         {| world := world s;
            log := log s ++ Markdown title_html :: Markdown choose_html :: l |})).
  { intros l Hrun pn hp fl eda disp jn s.
    unfold main, bind, emit. rewrite Hrun. cbn.
    now rewrite <- !app_assoc. }
  assert (Hreported : forall e,
    (forall s : state World,
        process_uploaded_file read_csv read_json file s = reported e s) ->
    exists (r : option DataFrame) (l : list event),
      (forall s : state World,
          process_uploaded_file read_csv read_json file s
          = (Ret r, {| world := world s; log := log s ++ l |}))
      /\ r = None /\ l = [Error (MsgException e)]).
  { intros e Hrun. exists None, [Error (MsgException e)]. now repeat split. }
  destruct (String.eqb (file_extension file) "csv") eqn:Ecsv;
    [apply String.eqb_eq in Ecsv | apply String.eqb_neq in Ecsv].
  - destruct (read_csv file) as [df | e] eqn:Eread.
    + exists (Some df), [].
      split; [| repeat split; try congruence; try discriminate].
      intros s. rewrite process_uploaded_file_run.
      apply String.eqb_eq in Ecsv. rewrite Ecsv, Eread.
      f_equal. apply state_eta.
    + destruct (Hreported e) as (r & l & Hrun & -> & ->).
      { intros s. rewrite process_uploaded_file_run.
        apply String.eqb_eq in Ecsv. now rewrite Ecsv, Eread. }
      exists None, [Error (MsgException e)].
      split; [exact Hrun |]. split; [discriminate |].
      split; [eexists; reflexivity |].
      split; [congruence |].
      split; [intros e' _ He; split; congruence |].
      split; [intros e' He; rewrite Ecsv in He; discriminate |].
      intros _. now apply Hmain.
  - destruct (String.eqb (file_extension file) "json") eqn:Ejson;
      [apply String.eqb_eq in Ejson | apply String.eqb_neq in Ejson].
    + assert (Hnot : String.eqb (file_extension file) "csv" = false)
        by now apply String.eqb_neq.
      destruct (read_json file) as [df | e] eqn:Eread.
      * exists (Some df), [].
        split; [| repeat split; try congruence; try discriminate].
        intros s. rewrite process_uploaded_file_run.
        apply String.eqb_eq in Ejson. rewrite Hnot, Ejson, Eread.
        f_equal. apply state_eta.
      * destruct (Hreported e) as (r & l & Hrun & -> & ->).
        { intros s. rewrite process_uploaded_file_run.
          apply String.eqb_eq in Ejson. now rewrite Hnot, Ejson, Eread. }
        exists None, [Error (MsgException e)].
        split; [exact Hrun |]. split; [discriminate |].
        split; [eexists; reflexivity |].
        split; [congruence |].
        split; [intros e' He; congruence |].
        split; [intros e' _ He; split; congruence |].
        intros _. now apply Hmain.
    + destruct (Hreported (ValueError "Unsupported file format"))
        as (r & l & Hrun & -> & ->).
      { intros s. rewrite process_uploaded_file_run.
        apply String.eqb_neq in Ecsv, Ejson. now rewrite Ecsv, Ejson. }
      exists None, [Error (MsgException (ValueError "Unsupported file format"))].
      split; [exact Hrun |]. split; [discriminate |].
      split; [eexists; reflexivity |].
      split; [now split |].
      split; [intros e' He; congruence |].
      split; [intros e' He; congruence |].
      intros _. now apply Hmain.
Qed.

End IngestClaims.

Section IngestExamples.
Import Py Frame Ui Ingest App.
Local Open Scope string_scope.

Lemma process_uploaded_file_never_raises_witness :
  main Sample.rejecting_reader Sample.one_cell_reader parse_decimal Scripted.http_post true
    Sample.silent Sample.silent Sample.ten_decimals
    (Some {| name := "trade.csv"; content := "a,b" |}) (Scripted.start [])
  = (Ret tt,
     {| world := [];
        log := [Markdown title_html; Markdown choose_html;
                Error (MsgException (ParserError "Error tokenizing data"))] |}).
Proof.
  destruct (process_uploaded_file_never_raises Scripted.World
              Sample.rejecting_reader Sample.one_cell_reader
              {| name := "trade.csv"; content := "a,b" |})
    as (r & l & _ & _ & _ & _ & Hcsv & _ & Hmain).
  destruct (Hcsv (ParserError "Error tokenizing data") eq_refl eq_refl) as [Hr Hl].
  rewrite (Hmain Hr parse_decimal Scripted.http_post true Sample.silent Sample.silent
             Sample.ten_decimals (Scripted.start [])).
  rewrite Hl. reflexivity.
Defined.

(** C10. The extension is what follows the last dot of the file name (the
    whole name when it has no dot), and it is compared as it is: when it is
    not exactly [csv] or [json] the function returns [None] with the error
    of an unsupported format. So it does for [data.CSV], [data.Json] and
    [data.csv.bak]. *)
Theorem process_uploaded_file_extension_exact (World : Type)
    (read_csv read_json : uploaded_file -> outcome DataFrame)
    (file : uploaded_file) :
  let ext := file_extension file in
  lacks "." ext = true
  /\ (name file = ext \/ exists stem, name file = stem ++ String "." ext)
  /\ (ext <> "csv" -> ext <> "json" ->
        forall s : state World,
          process_uploaded_file read_csv read_json file s
          = (Ret None,
             {| world := world s;
                log := log s ++ [Error (MsgException
                                          (ValueError "Unsupported file format"))] |}))
  /\ Forall (fun file_name =>
               forall (file_content : string) (s : state World),
                 process_uploaded_file read_csv read_json
                   {| name := file_name; content := file_content |} s
                 = (Ret None,
                    {| world := world s;
                       log := log s ++ [Error (MsgException
                                                 (ValueError "Unsupported file format"))] |}))
            ["data.CSV"; "data.Json"; "data.csv.bak"].
Proof.
  intros ext.
  destruct (last_segment_spec "." (name file)) as (_ & Hlacks & Hsuffix).
  cbv zeta in Hlacks, Hsuffix. fold (file_extension file) in Hlacks, Hsuffix.
  split; [exact Hlacks |]. split; [exact Hsuffix |]. split.
  - intros Hcsv Hjson s. rewrite process_uploaded_file_run.
    apply String.eqb_neq in Hcsv, Hjson. subst ext. now rewrite Hcsv, Hjson.
  - repeat constructor; intros file_content s;
      rewrite process_uploaded_file_run; reflexivity.
Qed.

Lemma process_uploaded_file_extension_exact_witness :
  process_uploaded_file Sample.one_cell_reader Sample.one_cell_reader
    {| name := "data.CSV"; content := "a,b" |} (Scripted.start [])
  = (Ret None,
     {| world := [];
        log := [Error (MsgException (ValueError "Unsupported file format"))] |}).
Proof.
  destruct (process_uploaded_file_extension_exact Scripted.World
              Sample.one_cell_reader Sample.one_cell_reader
              {| name := "data.CSV"; content := "a,b" |})
    as (_ & _ & Hrun & _).
  apply (Hrun ltac:(discriminate) ltac:(discriminate) (Scripted.start [])).
Defined.

End IngestExamples.

(** ** Tables: duplicates *)

Section DuplicateFacts.
Import Frame.

Lemma cell_eqb_sym (a b : cell) : cell_eqb a b = cell_eqb b a.
Proof.
  destruct a as [x | s |], b as [y | t |]; cbn; try reflexivity.
  - destruct (Qeq_bool x y) eqn:E1, (Qeq_bool y x) eqn:E2; try reflexivity.
    + apply Qeq_bool_iff in E1. symmetry in E1. apply Qeq_bool_iff in E1. congruence.
    + apply Qeq_bool_iff in E2. symmetry in E2. apply Qeq_bool_iff in E2. congruence.
  - apply String.eqb_sym.
Qed.

Lemma row_eqb_sym (r1 : row) : forall r2, row_eqb r1 r2 = row_eqb r2 r1.
Proof.
  induction r1 as [| a r1 IH]; intros [| b r2]; cbn; try reflexivity.
  now rewrite cell_eqb_sym, IH.
Qed.

Lemma select_length_le (A : Type) (mask : list bool) :
  forall l : list A, (length (select mask l) <= length l)%nat.
Proof.
  induction mask as [| m mask IH]; intros [| x l]; cbn; try lia.
  destruct m; cbn; specialize (IH l); lia.
Qed.

Lemma select_length (A : Type) (mask : list bool) :
  forall l : list A, length mask = length l ->
    length (select mask l) = length (filter id mask).
Proof.
  induction mask as [| m mask IH]; intros [| x l] H; cbn in *; try lia.
  destruct m; cbn; rewrite IH; lia.
Qed.

Lemma select_map (A B : Type) (f : A -> B) (mask : list bool) :
  forall l : list A, select mask (map f l) = map f (select mask l).
Proof.
  induction mask as [| m mask IH]; intros [| x l]; cbn; try reflexivity.
  destruct m; cbn; now rewrite IH.
Qed.

Lemma select_In (A : Type) (mask : list bool) :
  forall (l : list A) (x : A), In x (select mask l) -> In x l.
Proof.
  induction mask as [| m mask IH]; intros [| y l] x H; cbn in *; try contradiction.
  destruct m; cbn in H; [destruct H as [-> | H]|]; auto.
Qed.

Lemma select_all (A : Type) (mask : list bool) :
  forall l : list A, length mask = length l ->
    Forall (fun m => m = true) mask -> select mask l = l.
Proof.
  induction mask as [| m mask IH]; intros [| x l] H F; cbn in *; try lia;
    try reflexivity.
  inversion F; subst. now rewrite IH by (assumption || lia).
Qed.

Lemma filter_id_all (mask : list bool) :
  Forall (fun m => m = true) mask -> length (filter id mask) = length mask.
Proof.
  induction 1 as [| m mask -> _ IH]; cbn; [reflexivity | now rewrite IH].
Qed.

Lemma filter_id_length_le (mask : list bool) :
  (length (filter id mask) <= length mask)%nat.
Proof. induction mask as [| [] mask IH]; cbn; lia. Qed.

(** A list read position by position. *)
Lemma map_nth_seq (A : Type) (d : A) (l : list A) :
  map (fun i => nth i l d) (seq 0 (length l)) = l.
Proof.
  induction l as [| x l IH]; [reflexivity |].
  cbn [length seq map nth]. f_equal.
  rewrite <- seq_shift, map_map. exact IH.
Qed.

Lemma duplicated_from_length (rest : list row) :
  forall seen, length (duplicated_from seen rest) = length rest.
Proof. induction rest as [| r rest IH]; intros seen; cbn; [| rewrite IH]; reflexivity. Qed.

Lemma kept_rows_distinct (rest : list row) :
  forall seen,
    let kept := select (map negb (duplicated_from seen rest)) rest in
    Forall (fun k => existsb (row_eqb k) seen = false) kept
    /\ pairwise_distinct kept.
Proof.
  induction rest as [| r rest IH]; intros seen; cbn zeta.
  - cbn. split; constructor.
  - cbn [duplicated_from map select].
    destruct (IH (seen ++ [r])) as [Hseen Hdist]. cbv zeta in Hseen, Hdist.
    assert (Hsplit : Forall (fun k => existsb (row_eqb k) seen = false
                                      /\ row_eqb k r = false)
                       (select (map negb (duplicated_from (seen ++ [r]) rest)) rest)).
    { eapply Forall_impl; [| exact Hseen]. intros k Hk. cbn beta in Hk.
      rewrite existsb_app in Hk. apply orb_false_iff in Hk.
      destruct Hk as [H1 H2]. cbn in H2. rewrite orb_false_r in H2. now split. }
    destruct (existsb (row_eqb r) seen) eqn:E; cbn [negb].
    + split; [| exact Hdist].
      eapply Forall_impl; [| exact Hsplit]. now intros k [H _].
    + split.
      * constructor; [exact E |].
        eapply Forall_impl; [| exact Hsplit]. now intros k [H _].
      * cbn. split; [| exact Hdist].
        eapply Forall_impl; [| exact Hsplit]. now intros k [_ H].
Qed.

Lemma pairwise_distinct_nth (l : list row) :
  pairwise_distinct l ->
  forall i j, (i < j < length l)%nat -> row_eqb (nth i l []) (nth j l []) = false.
Proof.
  induction l as [| r l IH]; intros H i j Hij; cbn in Hij; [lia |].
  destruct H as [Hr Hl]. destruct j as [| j]; [lia |].
  destruct i as [| i]; cbn [nth].
  - rewrite row_eqb_sym.
    rewrite Forall_forall in Hr. apply Hr. apply nth_In. lia.
  - apply IH; [exact Hl | lia].
Qed.

(** Rows that differ pairwise hold no duplicate. *)
Lemma distinct_not_duplicated (rest : list row) :
  forall seen,
    (forall i, (i < length rest)%nat ->
               existsb (row_eqb (nth i rest [])) seen = false) ->
    (forall i j, (i < j < length rest)%nat ->
                 row_eqb (nth i rest []) (nth j rest []) = false) ->
    Forall (fun m => m = true) (map negb (duplicated_from seen rest)).
Proof.
  induction rest as [| r rest IH]; intros seen Hseen Hdist; cbn; constructor.
  - specialize (Hseen 0%nat ltac:(cbn; lia)). cbn in Hseen. now rewrite Hseen.
  - apply IH.
    + intros i Hi. rewrite existsb_app. apply orb_false_iff. split.
      * apply (Hseen (S i)). cbn. lia.
      * cbn. rewrite orb_false_r. rewrite row_eqb_sym.
        apply (Hdist 0%nat (S i)). cbn. lia.
    + intros i j Hij. apply (Hdist (S i) (S j)). cbn. lia.
Qed.

End DuplicateFacts.

Section DropDuplicatesFacts.
Import Frame.

Lemma rows_length (df : DataFrame) : length (rows df) = nrows df.
Proof. unfold rows. now rewrite length_map, length_seq. Qed.

Lemma nth_rows (df : DataFrame) (i : nat) :
  (i < nrows df)%nat -> nth i (rows df) [] = row_at df i.
Proof.
  intros Hi. unfold rows.
  rewrite (nth_indep _ [] (row_at df 0)) by now rewrite length_map, length_seq.
  rewrite map_nth. now rewrite seq_nth.
Qed.

Lemma duplicated_length (df : DataFrame) : length (duplicated df) = nrows df.
Proof. unfold duplicated. now rewrite duplicated_from_length, rows_length. Qed.

Lemma select_positions (A : Type) (d : A) (mask : list bool) (l : list A) :
  select mask l = map (fun p => nth p l d) (select mask (seq 0 (length l))).
Proof.
  rewrite <- select_map. now rewrite map_nth_seq.
Qed.

Lemma drop_duplicates_nrows_le (df : DataFrame) :
  (nrows (drop_duplicates df) <= nrows df)%nat.
Proof.
  unfold drop_duplicates. destruct (empty df); [lia |]. cbn.
  etransitivity; [apply filter_id_length_le |].
  now rewrite length_map, duplicated_length.
Qed.

Lemma drop_duplicates_well_formed (df : DataFrame) :
  well_formed df -> well_formed (drop_duplicates df).
Proof.
  intros Hwf. unfold drop_duplicates. destruct (empty df); [exact Hwf |].
  unfold well_formed in *. cbn. rewrite Forall_map. cbn.
  eapply Forall_impl; [| exact Hwf]. intros c Hc. cbn beta in Hc.
  apply select_length. now rewrite length_map, duplicated_length.
Qed.

(** Dropping the marked positions of every column drops the marked rows. *)
Lemma rows_drop_duplicates (df : DataFrame) :
  well_formed df -> empty df = false ->
  rows (drop_duplicates df) = select (map negb (duplicated df)) (rows df).
Proof.
  intros Hwf Hne. unfold drop_duplicates. rewrite Hne.
  set (keep := map negb (duplicated df)).
  assert (Hkeep : length keep = nrows df)
    by (subst keep; now rewrite length_map, duplicated_length).
  set (pos := select keep (seq 0 (nrows df))).
  assert (Hpos : length pos = length (filter id keep))
    by (subst pos; apply select_length; now rewrite length_seq).
  unfold rows at 2. rewrite select_map. fold pos.
  unfold rows. cbn [nrows]. rewrite <- Hpos.
  transitivity (map (row_at df)
                  (map (fun i => nth i pos 0%nat) (seq 0 (length pos))));
    [| now rewrite map_nth_seq].
  rewrite map_map.
  apply map_ext_in. intros i Hi. apply in_seq in Hi.
  unfold row_at. cbn [cols]. rewrite map_map. cbn [snd].
  apply map_ext_in. intros c Hc.
  unfold well_formed in Hwf. rewrite Forall_forall in Hwf.
  specialize (Hwf c Hc).
  rewrite (select_positions Missing keep (snd c)). rewrite Hwf. fold pos.
  rewrite (nth_indep _ Missing (nth 0 (snd c) Missing)) by (rewrite length_map; lia).
  now rewrite (map_nth (fun p => nth p (snd c) Missing)).
Qed.

Lemma drop_duplicates_distinct (df : DataFrame) :
  well_formed df -> cols df <> [] -> distinct_rows (drop_duplicates df).
Proof.
  intros Hwf Hcols i j Hij.
  destruct (empty df) eqn:Hne.
  - exfalso.
    assert (E : drop_duplicates df = df)
      by (unfold drop_duplicates; now rewrite Hne).
    rewrite E in Hij. unfold empty in Hne.
    apply orb_true_iff in Hne. destruct Hne as [Hz | Hc].
    + apply Nat.eqb_eq in Hz. lia.
    + destruct (cols df); [congruence | discriminate].
  - rewrite <- !nth_rows by lia.
    rewrite rows_drop_duplicates by assumption.
    pose proof (kept_rows_distinct (rows df) []) as [_ Hd]. cbv zeta in Hd.
    apply pairwise_distinct_nth; [exact Hd |].
    fold (duplicated df). rewrite <- rows_drop_duplicates by assumption.
    now rewrite rows_length.
Qed.

(** A table whose rows differ pairwise is left as it is. *)
Lemma drop_duplicates_fixed (df : DataFrame) :
  well_formed df -> distinct_rows df -> drop_duplicates df = df.
Proof.
  intros Hwf Hd. unfold drop_duplicates. destruct (empty df); [reflexivity |].
  assert (Hall : Forall (fun m => m = true) (map negb (duplicated df))).
  { apply distinct_not_duplicated.
    - intros i _. reflexivity.
    - intros i j Hij. rewrite rows_length in Hij.
      rewrite !nth_rows by lia. now apply Hd. }
  assert (Hlen : length (map negb (duplicated df)) = nrows df)
    by now rewrite length_map, duplicated_length.
  destruct df as [n cs]. cbn in *. f_equal.
  - now rewrite filter_id_all.
  - rewrite <- (map_id cs) at 2. apply map_ext_in. intros c Hc.
    unfold well_formed in Hwf. cbn in Hwf. rewrite Forall_forall in Hwf.
    rewrite select_all; [now destruct c | | exact Hall].
    rewrite Hlen. symmetry. now apply Hwf.
Qed.

End DropDuplicatesFacts.

(** ** Tables: coercion and filling, column by column *)

Section SeriesFacts.
Import Frame.

Variable parse_numeric : string -> option (option Q).

Local Notation "'coerce'" := (coerce_cell parse_numeric).
Local Notation "'to_numeric'" := (to_numeric_ignore parse_numeric).
Local Notation "'clean_column'" := (clean_series parse_numeric).

Lemma coerce_cell_numeric (x y : cell) :
  coerce x = Some y -> match y with Str _ => False | _ => True end.
Proof.
  destruct x as [q | s |]; cbn.
  - now intros [= <-].
  - destruct (parse_numeric s) as [[q |] |]; [intros [= <-] | intros [= <-] |]; easy.
  - now intros [= <-].
Qed.

Lemma coerce_all_spec (s : series) :
  match coerce_all parse_numeric s with
  | Some s' => Forall2 (fun x y => coerce x = Some y) s s'
  | None => exists x, In x s /\ coerce x = None
  end.
Proof.
  induction s as [| x s IH]; cbn; [constructor |].
  destruct (coerce x) as [y |] eqn:Ex.
  - destruct (coerce_all parse_numeric s) as [s' |].
    + now constructor.
    + destruct IH as (z & Hz & Ez). exists z. split; [now right | exact Ez].
  - exists x. split; [now left | exact Ex].
Qed.

Lemma coerce_all_numeric (s s' : series) :
  coerce_all parse_numeric s = Some s' -> is_number_dtype s' = true.
Proof.
  intros H. pose proof (coerce_all_spec s) as F. rewrite H in F. clear H.
  induction F as [| x y s s' Hxy _ IH]; [reflexivity |].
  change (is_number_dtype (y :: s'))
    with (match y with Str _ => false | _ => true end && is_number_dtype s').
  rewrite IH. apply coerce_cell_numeric in Hxy. now destruct y.
Qed.

Lemma coerce_all_length (s s' : series) :
  coerce_all parse_numeric s = Some s' -> length s' = length s.
Proof.
  intros H. pose proof (coerce_all_spec s) as F. rewrite H in F.
  symmetry. eapply Forall2_length. exact F.
Qed.

(** A column without strings is already numeric. *)
Lemma coerce_all_fixed (s : series) :
  is_number_dtype s = true -> coerce_all parse_numeric s = Some s.
Proof.
  induction s as [| x s IH]; [reflexivity |]. intros H.
  change (is_number_dtype (x :: s))
    with (match x with Str _ => false | _ => true end && is_number_dtype s) in H.
  apply andb_true_iff in H. destruct H as [Hx Hs].
  cbn. rewrite (IH Hs). now destruct x.
Qed.

Lemma coerce_all_none_not_numeric (s : series) :
  coerce_all parse_numeric s = None -> is_number_dtype s = false.
Proof.
  intros H. destruct (is_number_dtype s) eqn:E; [| reflexivity].
  rewrite (coerce_all_fixed s E) in H. discriminate.
Qed.

Lemma to_numeric_ignore_length (s : series) : length (to_numeric s) = length s.
Proof.
  unfold to_numeric_ignore.
  destruct (coerce_all parse_numeric s) eqn:E; [| reflexivity].
  now apply coerce_all_length.
Qed.

Lemma fillna_length (v : option Q) (s : series) : length (fillna v s) = length s.
Proof. destruct v; cbn; [apply length_map | reflexivity]. Qed.

Lemma fill_series_length (s : series) : length (fill_series s) = length s.
Proof. unfold fill_series. destruct (is_number_dtype s); [apply fillna_length | reflexivity]. Qed.

Lemma fillna_no_missing (q : Q) (s : series) : ~ In Missing (fillna (Some q) s).
Proof.
  cbn. intros H. apply in_map_iff in H. destruct H as (c & Hc & _).
  destruct c; discriminate.
Qed.

Lemma fillna_fixed (v : option Q) (s : series) :
  ~ In Missing s -> fillna v s = s.
Proof.
  intros H. destruct v as [q |]; cbn; [| reflexivity].
  rewrite <- (map_id s) at 2. apply map_ext_in. intros c Hc.
  destruct c; try reflexivity. contradiction.
Qed.

Lemma fillna_is_number_dtype (v : option Q) (s : series) :
  is_number_dtype (fillna v s) = is_number_dtype s.
Proof.
  destruct v as [q |]; [| reflexivity].
  induction s as [| c s IH]; [reflexivity |].
  change (is_number_dtype (c :: s))
    with (match c with Str _ => false | _ => true end && is_number_dtype s).
  rewrite <- IH. now destruct c.
Qed.




Lemma mean_spec (s : series) (m : Q) :
  mean s = Some m ->
  (m == fold_right Qplus 0 (present s)
        / inject_Z (Z.of_nat (length (present s))))%Q.
Proof.
  unfold mean. generalize (present s) as qs.
  intros [| q qs]; [discriminate |].
  intros H.
  apply (f_equal (fun o => match o with Some x => x | None => m end)) in H.
  cbv beta iota in H. rewrite <- H. apply Qred_correct.
Qed.

Lemma mean_none (s : series) : mean s = None <-> present s = [].
Proof.
  unfold mean. destruct (present s); split; congruence.
Qed.

(** A settled column is left as it is by both steps. *)
Lemma settled_series_fixed (s : series) :
  forallb (settled_cell parse_numeric) s = true -> clean_column s = s.
Proof.
  intros H.
  assert (Hmissing : ~ In Missing s).
  { intros Hin. rewrite forallb_forall in H. specialize (H _ Hin). discriminate. }
  assert (Hto : to_numeric s = s).
  { unfold to_numeric_ignore.
    pose proof (coerce_all_spec s) as F.
    destruct (coerce_all parse_numeric s) as [s' |]; [| reflexivity].
    clear Hmissing. induction F as [| x y s s' Hxy _ IH]; [reflexivity |].
    cbn in H. apply andb_true_iff in H. destruct H as [Hx Hs].
    rewrite (IH Hs). f_equal.
    destruct x as [q | t |]; cbn in *; try congruence.
    destruct (parse_numeric t); discriminate. }
  unfold clean_series. rewrite Hto. unfold fill_series.
  destruct (is_number_dtype s); [now apply fillna_fixed | reflexivity].
Qed.

(** A cleaned column is left as it is by both steps. *)
Lemma clean_series_settled (s : series) :
  to_numeric (clean_column s) = clean_column s
  /\ fill_series (clean_column s) = clean_column s.
Proof.
  unfold clean_series.
  assert (Hcases :
    (exists s1, coerce_all parse_numeric s = Some s1 /\ to_numeric s = s1)
    \/ (coerce_all parse_numeric s = None /\ to_numeric s = s)).
  { unfold to_numeric_ignore.
    destruct (coerce_all parse_numeric s) as [s1 |]; [left; now exists s1 | now right]. }
  destruct Hcases as [(s1 & E & ->) | (E & ->)].
  - pose proof (coerce_all_numeric s E) as Hnum.
    assert (Hfill : fill_series s1 = fillna (mean s1) s1)
      by (unfold fill_series; now rewrite Hnum).
    rewrite Hfill.
    assert (Hnum2 : is_number_dtype (fillna (mean s1) s1) = true)
      by now rewrite fillna_is_number_dtype.
    split.
    + unfold to_numeric_ignore. now rewrite (coerce_all_fixed _ Hnum2).
    + unfold fill_series. rewrite Hnum2.
      destruct (mean s1) as [q |] eqn:Em.
      * apply fillna_fixed. apply fillna_no_missing.
      * cbn [fillna]. now rewrite Em.
  - pose proof (coerce_all_none_not_numeric s E) as Hnum.
    assert (Hfill : fill_series s = s)
      by (unfold fill_series; now rewrite Hnum).
    rewrite Hfill. split; [| exact Hfill].
    unfold to_numeric_ignore. now rewrite E.
Qed.

(** Cleaning a cleaned column changes nothing. *)
Lemma clean_series_fixed (s : series) :
  clean_column (clean_column s) = clean_column s.
Proof.
  destruct (clean_series_settled s) as [Hto Hfill].
  unfold clean_series at 1. now rewrite Hto.
Qed.

End SeriesFacts.

(** ** Tables: [clean_data] as a whole *)

Section CleanFacts.
Import Frame.

Variable parse_numeric : string -> option (option Q).

Local Notation "'clean'" := (clean_data parse_numeric).
Local Notation "'clean_column'" := (clean_series parse_numeric).

Lemma clean_data_columns (df : DataFrame) :
  clean df
  = {| nrows := nrows (drop_duplicates df);
       cols := map (fun c => (fst c, clean_column (snd c)))
                 (cols (drop_duplicates df)) |}.
Proof.
  unfold clean_data, fill_numeric_columns, coerce_columns. cbn. f_equal.
  rewrite map_map. apply map_ext. intros c. cbn [fst snd].
  unfold clean_series, fill_series.
  now destruct (is_number_dtype (to_numeric_ignore parse_numeric (snd c))).
Qed.

Lemma column_map (df : DataFrame) (f : series -> series) (n : nat) (j : nat) :
  f [] = [] ->
  column {| nrows := n; cols := map (fun c => (fst c, f (snd c))) (cols df) |} j
  = f (column df j).
Proof.
  intros Hf. unfold column. cbn. rewrite nth_error_map.
  destruct (nth_error (cols df) j); cbn; [reflexivity | now rewrite Hf].
Qed.

Lemma column_coerce_columns (df : DataFrame) (j : nat) :
  column (coerce_columns parse_numeric df) j
  = to_numeric_ignore parse_numeric (column df j).
Proof. unfold coerce_columns. now apply column_map. Qed.

Lemma column_clean_data (df : DataFrame) (j : nat) :
  column (clean df) j = clean_column (column (drop_duplicates df) j).
Proof. rewrite clean_data_columns. now apply column_map. Qed.

Lemma clean_data_well_formed (df : DataFrame) :
  well_formed df -> well_formed (clean df).
Proof.
  intros Hwf. apply drop_duplicates_well_formed in Hwf.
  rewrite clean_data_columns. unfold well_formed in *. cbn.
  rewrite Forall_map. eapply Forall_impl; [| exact Hwf].
  intros c Hc. cbn in *. unfold clean_series.
  now rewrite fill_series_length, to_numeric_ignore_length.
Qed.

Lemma settled_drop_duplicates (df : DataFrame) :
  settled parse_numeric df -> settled parse_numeric (drop_duplicates df).
Proof.
  intros Hs. unfold drop_duplicates. destruct (empty df); [exact Hs |].
  unfold settled in *. cbn. rewrite Forall_map.
  eapply Forall_impl; [| exact Hs]. intros c Hc. cbn in *.
  rewrite forallb_forall in *. intros x Hx. apply Hc.
  eapply select_In. exact Hx.
Qed.

(** On a settled table cleaning only removes the duplicates. *)
Lemma clean_data_settled (df : DataFrame) :
  settled parse_numeric df -> clean df = drop_duplicates df.
Proof.
  intros Hs. apply settled_drop_duplicates in Hs.
  rewrite clean_data_columns.
  destruct (drop_duplicates df) as [n cs]. unfold settled in Hs.
  cbn [cols nrows] in *.
  f_equal. rewrite <- (map_id cs) at 2. apply map_ext_in. intros c Hc.
  rewrite Forall_forall in Hs.
  rewrite settled_series_fixed by (apply Hs, Hc).
  now destruct c.
Qed.

(** A second pass does nothing when the first left no two equal rows. *)
Lemma clean_data_fixed (df : DataFrame) :
  well_formed df -> distinct_rows (clean df) -> clean (clean df) = clean df.
Proof.
  intros Hwf Hd.
  rewrite (clean_data_columns (clean df)).
  rewrite (drop_duplicates_fixed (clean_data_well_formed Hwf) Hd).
  rewrite clean_data_columns. cbn. f_equal.
  rewrite map_map. apply map_ext. intros c. cbn.
  now rewrite clean_series_fixed.
Qed.

End CleanFacts.

(** ** Cleaning: the claims *)

Section CleanClaims.
Import Frame.
Local Open Scope string_scope.

(** C4, as the code has it. Cleaning a cleaned table gives the same table
    whenever the first pass left no two equal rows; so it is in particular
    for a table with a column, without missing values and without strings
    that read as numbers. *)
Theorem clean_data_idempotent_on_distinct
    (parse_numeric : string -> option (option Q)) (df : DataFrame) :
  well_formed df ->
  (distinct_rows (clean_data parse_numeric df) ->
     clean_data parse_numeric (clean_data parse_numeric df)
     = clean_data parse_numeric df)
  /\ (cols df <> [] -> settled parse_numeric df ->
        clean_data parse_numeric (clean_data parse_numeric df)
        = clean_data parse_numeric df).
Proof.
  intros Hwf. split.
  - now apply clean_data_fixed.
  - intros Hcols Hs. apply clean_data_fixed; [exact Hwf |].
    rewrite clean_data_settled by exact Hs.
    now apply drop_duplicates_distinct.
Qed.

(** C4 fails as stated: the mean written into the second row makes it equal
    to the first, and a second pass drops it. *)
Lemma clean_data_not_idempotent :
  clean_data parse_decimal (clean_data parse_decimal Sample.one_and_missing)
  <> clean_data parse_decimal Sample.one_and_missing.
Proof. vm_compute. discriminate. Qed.

(** C5, as the code has it. The cleaned table has as many rows as the table
    without its duplicates, so at most as many as the table; for a table
    with a column the rows are pairwise different once the duplicates are
    dropped, and they still are at the end when the table has no missing
    value and no string that reads as a number. *)
Theorem clean_data_row_count
    (parse_numeric : string -> option (option Q)) (df : DataFrame) :
  well_formed df ->
  (nrows (clean_data parse_numeric df) <= nrows df)%nat
  /\ nrows (clean_data parse_numeric df) = nrows (drop_duplicates df)
  /\ (cols df <> [] -> distinct_rows (drop_duplicates df))
  /\ (cols df <> [] -> settled parse_numeric df ->
        distinct_rows (clean_data parse_numeric df)).
Proof.
  intros Hwf.
  assert (Hn : nrows (clean_data parse_numeric df) = nrows (drop_duplicates df))
    by now rewrite clean_data_columns.
  split; [rewrite Hn; apply drop_duplicates_nrows_le |].
  split; [exact Hn |].
  split; [now apply drop_duplicates_distinct |].
  intros Hcols Hs. rewrite clean_data_settled by exact Hs.
  now apply drop_duplicates_distinct.
Qed.

(** C5 fails as stated: the two rows of the cleaned table are equal. *)
Lemma clean_data_leaves_equal_rows :
  ~ ((nrows (clean_data parse_decimal Sample.one_and_missing)
      <= nrows Sample.one_and_missing)%nat
     /\ distinct_rows (clean_data parse_decimal Sample.one_and_missing)).
Proof.
  intros [_ Hd]. specialize (Hd 0%nat 1%nat).
  assert (H : (0 < 1 < nrows (clean_data parse_decimal Sample.one_and_missing))%nat)
    by (vm_compute; split; repeat constructor).
  specialize (Hd H). vm_compute in Hd. discriminate.
Qed.




End CleanClaims.

Section CleanExamples.
Import Frame.
Local Open Scope string_scope.

(** Rows of a small table, compared pair by pair. *)
Ltac compare_rows n :=
  let i := fresh "i" in
  let j := fresh "j" in
  let Hij := fresh "Hij" in
  intros i j Hij; change (i < j < n)%nat in Hij;
  do 4 (try destruct i as [| i]); do 4 (try destruct j as [| j]);
  try reflexivity; exfalso; lia.

Lemma sample_mixed_well_formed : well_formed Sample.mixed.
Proof. repeat constructor. Defined.

Lemma sample_plain_well_formed : well_formed Sample.plain.
Proof. repeat constructor. Defined.

Lemma sample_plain_settled : settled parse_decimal Sample.plain.
Proof. repeat constructor. Defined.

Lemma clean_data_idempotent_on_distinct_witness :
  clean_data parse_decimal (clean_data parse_decimal Sample.mixed)
  = clean_data parse_decimal Sample.mixed
  /\ clean_data parse_decimal (clean_data parse_decimal Sample.plain)
     = clean_data parse_decimal Sample.plain.
Proof.
  split.
  - apply (proj1 (clean_data_idempotent_on_distinct parse_decimal
                    sample_mixed_well_formed)).
    compare_rows 3%nat.
  - apply (proj2 (clean_data_idempotent_on_distinct parse_decimal
                    sample_plain_well_formed)).
    + discriminate.
    + exact sample_plain_settled.
Defined.

Lemma clean_data_row_count_witness :
  (nrows (clean_data parse_decimal Sample.mixed) <= nrows Sample.mixed)%nat
  /\ distinct_rows (drop_duplicates Sample.mixed)
  /\ distinct_rows (clean_data parse_decimal Sample.plain).
Proof.
  destruct (clean_data_row_count parse_decimal sample_mixed_well_formed)
    as (Hle & _ & Hdrop & _).
  destruct (clean_data_row_count parse_decimal sample_plain_well_formed)
    as (_ & _ & _ & Hplain).
  split; [exact Hle |]. split.
  - apply Hdrop. discriminate.
  - apply Hplain; [discriminate | exact sample_plain_settled].
Defined.



End CleanExamples.

(* ================================================================== *)
(** * Further properties *)

(** ** Chunked submission: edges, reports, errors *)

Section SubmitEdges.
Import Py Frame Ui Submit Report.
Local Open Scope Z_scope.

Variable World : Type.
Variable http_post : World -> string -> list record -> outcome response * World.
Variable json_error_is_request_exception : bool.

Local Notation "'send_post'" :=
  (send_post_request http_post json_error_is_request_exception).
Local Notation "'send_chunks'" :=
  (send_data_in_chunks http_post json_error_is_request_exception).

Lemma num_chunks_negative (data : list record) (c : Z) :
  c < 0 -> num_chunks data c <= 0.
Proof.
  intros Hc. unfold num_chunks.
  set (len := Z.of_nat (length data)).
  assert (Hlen : 0 <= len) by (subst len; lia).
  pose proof (Z.div_mod len c ltac:(lia)) as Hdm.
  pose proof (Z.mod_neg_bound len c Hc) as Hm.
  assert (Hgt : (len mod c >? 0) = false)
    by (rewrite Z.gtb_ltb; apply Z.ltb_ge; lia).
  rewrite Hgt. nia.
Qed.

Lemma num_chunks_nil (c : Z) : c <> 0 -> num_chunks [] c = 0.
Proof.
  intros Hc. unfold num_chunks. cbn [length Z.of_nat].
  rewrite Z.div_0_l, Z.mod_0_l by exact Hc. reflexivity.
Qed.

(** X1. With a chunk size of zero the function raises before it sends anything;
    with a negative chunk size, or with no record to send, it returns
    without sending or showing anything. *)
Theorem send_data_in_chunks_nothing_to_send (url : string) (data : list record)
    (chunk_size : Z) (s : state World) :
  (chunk_size = 0 ->
     send_chunks url data chunk_size s = (Raise ZeroDivisionError, s))
  /\ (chunk_size < 0 -> send_chunks url data chunk_size s = (Ret tt, s))
  /\ (chunk_size <> 0 -> data = [] ->
        send_chunks url data chunk_size s = (Ret tt, s)).
Proof.
  split; [| split].
  - intros ->. apply send_data_in_chunks_zero.
  - intros Hc. rewrite send_data_in_chunks_loop by lia.
    pose proof (num_chunks_negative data Hc) as Hn.
    unfold range. replace (Z.to_nat (num_chunks data chunk_size)) with 0%nat by lia.
    reflexivity.
  - intros Hc ->. rewrite send_data_in_chunks_loop by exact Hc.
    now rewrite num_chunks_nil.
Qed.

(** X2. Records that fit in one chunk are sent whole, in one request. *)
Theorem chunks_single (data : list record) (chunk_size : Z) :
  data <> [] -> Z.of_nat (length data) <= chunk_size ->
  chunks data chunk_size = [data].
Proof.
  intros Hne Hfit.
  assert (Hlen : 0 < Z.of_nat (length data))
    by (destruct data; [congruence | cbn; lia]).
  assert (Hc : 0 < chunk_size) by lia.
  pose proof (num_chunks_bounds data Hc) as [Hn Hb]. cbv zeta in Hb.
  assert (H1 : num_chunks data chunk_size = 1) by nia.
  pose proof (chunks_concat data Hc) as Hcat.
  unfold chunks in *. rewrite H1 in *.
  change (range 1) with [0] in *. cbn [map concat] in *.
  rewrite app_nil_r in Hcat. now rewrite Hcat.
Qed.

End SubmitEdges.

Section SubmitReports.
Import Py Frame Ui Submit Report.
Local Open Scope Z_scope.

Variable World : Type.
Variable http_post : World -> string -> list record -> outcome response * World.
Variable json_error_is_request_exception : bool.

Local Notation "'send_post'" :=
  (send_post_request http_post json_error_is_request_exception).
Local Notation "'send_chunks'" :=
  (send_data_in_chunks http_post json_error_is_request_exception).

Lemma loop_trace_reports (url : string) (data : list record) (c n : Z)
    (indices : list Z) (l : list event) :
  loop_trace url data c n indices l ->
  exists k,
    (k <= length indices)%nat
    /\ (chunk_reports l
        = map (fun i => MsgChunkSubmitted (i + 1) n) (firstn k indices)
        \/ exists i, nth_error indices k = Some i
                     /\ chunk_reports l
                        = map (fun i => MsgChunkSubmitted (i + 1) n) (firstn k indices)
                          ++ [MsgChunkFailed (i + 1) n])
    /\ (k <= length (posts l) <= S k)%nat.
Proof.
  induction 1 as [| i rest l _ (k & Hk & Hr & Hp) | i rest e | i rest | i rest].
  - exists 0%nat. cbn. repeat split; try lia. now left.
  - exists (S k). split; [cbn; lia |]. split.
    + destruct Hr as [Hr | (i' & Hi' & Hr)]; [left | right; exists i'; split; [exact Hi' |]];
        unfold chunk_reports in *; cbn; now rewrite Hr.
    + unfold posts in *. cbn. lia.
  - exists 0%nat. split; [cbn; lia |]. split; [| cbn; lia].
    right. exists i. split; reflexivity.
  - exists 0%nat. split; [cbn; lia |]. split; [| cbn; lia].
    right. exists i. split; reflexivity.
  - exists 0%nat. split; [cbn; lia |]. split; [| cbn; lia].
    now left.
Qed.

Lemma firstn_seq_le (k : nat) :
  forall a n, (k <= n)%nat -> firstn k (seq a n) = seq a k.
Proof.
  induction k as [| k IH]; intros a n Hk; [reflexivity |].
  destruct n as [| n]; [lia |]. cbn. f_equal. apply IH. lia.
Qed.

Lemma firstn_range (n : Z) (k : nat) :
  (k <= length (range n))%nat -> firstn k (range n) = map Z.of_nat (seq 0 k).
Proof.
  unfold range. rewrite length_map, length_seq. intros Hk.
  rewrite firstn_map. now rewrite firstn_seq_le by exact Hk.
Qed.

(** X3. The reports of a run are "submitted" for the chunks 1, 2, ..., k, in
    this order, then at most one "failed", which is for chunk k + 1; at
    most one chunk is sent without being reported as submitted. *)
Theorem send_data_in_chunks_reports (url : string) (data : list record)
    (chunk_size : Z) (s : state World) :
  let n := num_chunks data chunk_size in
  let submitted k :=
    map (fun i => MsgChunkSubmitted (Z.of_nat i + 1) n) (seq 0 k) in
  exists l k,
    log (snd (send_chunks url data chunk_size s)) = log s ++ l
    /\ (chunk_reports l = submitted k
        \/ (Z.of_nat k < n
            /\ chunk_reports l = submitted k ++ [MsgChunkFailed (Z.of_nat k + 1) n]))
    /\ (k <= length (posts l) <= S k)%nat.
Proof.
  intros n submitted.
  destruct (Z.eq_dec chunk_size 0) as [-> | Hc].
  - exists [], 0%nat. rewrite send_data_in_chunks_zero. cbn.
    rewrite app_nil_r. repeat split; try lia. now left.
  - rewrite send_data_in_chunks_loop by exact Hc. fold n.
    destruct (submit_loop_trace http_post json_error_is_request_exception
                url data chunk_size n (range n) s) as (l & Hl & Ht).
    destruct (loop_trace_reports Ht) as (k & Hk & Hr & Hp).
    exists l, k. split; [exact Hl |]. split; [| exact Hp].
    assert (Hsub : map (fun i => MsgChunkSubmitted (i + 1) n) (firstn k (range n))
                   = submitted k).
    { rewrite firstn_range by exact Hk. subst submitted. now rewrite map_map. }
    rewrite Hsub in Hr.
    destruct Hr as [Hr | (i & Hi & Hr)]; [now left | right].
    assert (Hlt : (k < length (range n))%nat)
      by (apply nth_error_Some; congruence).
    apply nth_error_range in Hi. subst i.
    split; [| exact Hr].
    unfold range in Hlt. rewrite length_map, length_seq in Hlt. lia.
Qed.

(** When the only exceptions of a request are those of [requests] and a
    body that is not JSON counts among them, nothing leaves
    [send_post_request]. *)
Lemma send_post_request_returns (url : string) (chunk : list record)
    (s : state World) :
  json_error_is_request_exception = true ->
  (forall w u ch e, fst (http_post w u ch) = Raise e ->
                    is_request_exception json_error_is_request_exception e = true) ->
  exists v s', send_post url chunk s = (Ret v, s').
Proof.
  intros Hjson Hexn.
  unfold send_post_request, try_except, bind, requests_post.
  specialize (Hexn (world s) url chunk).
  destruct (http_post (world s) url chunk) as [[resp | e] w]; cbn in *.
  - unfold raise_for_status.
    destruct ((400 <=? status_code resp) && (status_code resp <? 600)); cbn.
    + eexists _, _. reflexivity.
    + unfold response_json. destruct (body resp) as [v |]; cbn.
      * eexists _, _. reflexivity.
      * rewrite Hjson. cbn. eexists _, _. reflexivity.
  - rewrite (Hexn e eq_refl). cbn. eexists _, _. reflexivity.
Qed.

Lemma send_data_in_chunks_total (url : string) (data : list record)
    (chunk_size : Z) (s : state World) :
  json_error_is_request_exception = true ->
  (forall w u ch e, fst (http_post w u ch) = Raise e ->
                    is_request_exception json_error_is_request_exception e = true) ->
  chunk_size <> 0 ->
  exists s', send_chunks url data chunk_size s = (Ret tt, s').
Proof.
  intros Hjson Hexn Hc. rewrite send_data_in_chunks_loop by exact Hc.
  generalize (num_chunks data chunk_size) at 1. intros n.
  generalize (range (num_chunks data chunk_size)). intros indices. revert s.
  induction indices as [| i rest IH]; intros s.
  - exists s. reflexivity.
  - cbn [submit_loop]. unfold bind at 1.
    destruct (send_post_request_returns url
                (slice (i * chunk_size) ((i + 1) * chunk_size) data) s Hjson Hexn)
      as (v & s1 & ->).
    destruct (truthy v).
    + unfold bind, emit. apply IH.
    + unfold emit. eexists. reflexivity.
Qed.

(** X4. When the only exceptions of a request are those of [requests],
    [send_data_in_chunks] returns normally whatever the endpoint answers: a
    failed submission is shown, not raised. *)
Theorem send_data_in_chunks_returns (url : string) (data : list record)
    (chunk_size : Z) (s : state World) :
  json_error_is_request_exception = true ->
  (forall w u ch e, fst (http_post w u ch) = Raise e ->
                    is_request_exception json_error_is_request_exception e = true) ->
  chunk_size <> 0 ->
  exists s', send_chunks url data chunk_size s = (Ret tt, s').
Proof. apply send_data_in_chunks_total. Qed.

(** X5. A reply with a status from 400 to 599 is an error whatever its body:
    the error is shown and [None] is returned. Any other status is let
    through, and the body is what is returned. *)
Theorem send_post_request_status (url : string) (chunk : list record)
    (s : state World) (reply : response) (w : World) :
  http_post (world s) url chunk = (Ret reply, w) ->
  (400 <= status_code reply < 600 ->
     send_post url chunk s
     = (Ret JNull,
        {| world := w;
           log := log s ++ [Post url chunk;
                            Error (MsgRequestError (HTTPError (status_code reply)))] |}))
  /\ (status_code reply < 400 \/ 600 <= status_code reply ->
        forall v, body reply = Some v ->
          send_post url chunk s
          = (Ret v, {| world := w; log := log s ++ [Post url chunk] |})).
Proof.
  intros Hreply.
  unfold send_post_request, try_except, bind, requests_post. rewrite Hreply.
  unfold raise_for_status. split.
  - intros Hs.
    assert (E : (400 <=? status_code reply) && (status_code reply <? 600) = true)
      by (apply andb_true_iff; split; [apply Z.leb_le | apply Z.ltb_lt]; lia).
    rewrite E. cbn. now rewrite <- app_assoc.
  - intros Hs v Hv.
    assert (E : (400 <=? status_code reply) && (status_code reply <? 600) = false).
    { apply andb_false_iff. destruct Hs; [left; apply Z.leb_gt | right; apply Z.ltb_ge]; lia. }
    rewrite E. cbn. unfold response_json. now rewrite Hv.
Qed.

End SubmitReports.

(** ** File ingestion: which reader a name selects *)

Section ExtensionFacts.
Import Py.
Local Open Scope string_scope.

Variable sep : ascii.

Lemma split_one (s : string) : lacks sep s = true -> split sep s = [s].
Proof.
  induction s as [| c rest IH]; [reflexivity |]. cbn.
  destruct (Ascii.eqb c sep); cbn; [discriminate |].
  intros H. now rewrite (IH H).
Qed.

Lemma last_cons_not_nil (A : Type) (x d : A) (l : list A) :
  l <> [] -> last (x :: l) d = last l d.
Proof. destruct l; [congruence | reflexivity]. Qed.

Lemma split_append_two (a b : string) :
  (2 <= length (split sep (a ++ String sep b)))%nat.
Proof.
  induction a as [| c a IH]; cbn [append split].
  - rewrite Ascii.eqb_refl. cbn.
    pose proof (split_not_nil sep b). destruct (split sep b); [congruence | cbn; lia].
  - destruct (Ascii.eqb c sep).
    + cbn. lia.
    + destruct (split sep (a ++ String sep b)) as [| seg segs]; cbn in *; lia.
Qed.

(** What follows the last separator is the last segment. *)
Lemma last_split_append (a b : string) :
  last (split sep (a ++ String sep b)) "" = last (split sep b) "".
Proof.
  induction a as [| c a IH]; cbn [append split].
  - rewrite Ascii.eqb_refl. apply last_cons_not_nil, split_not_nil.
  - pose proof (split_append_two a b) as H2.
    destruct (Ascii.eqb c sep).
    + rewrite last_cons_not_nil by apply split_not_nil. exact IH.
    + destruct (split sep (a ++ String sep b)) as [| seg segs]; [cbn in H2; lia |].
      destruct segs as [| seg' segs]; [cbn in H2; lia |].
      rewrite <- IH. reflexivity.
Qed.

Lemma last_split_suffix (stem ext : string) :
  lacks sep ext = true ->
  last (split sep (stem ++ String sep ext)) "" = ext.
Proof.
  intros H. rewrite last_split_append, (split_one _ H). reflexivity.
Qed.

End ExtensionFacts.

Section IngestReaders.
Import Py Frame Ui Ingest.
Local Open Scope string_scope.

Variable World : Type.
Variable read_csv : uploaded_file -> outcome DataFrame.
Variable read_json : uploaded_file -> outcome DataFrame.

(** X6. A file whose name ends in [.csv] is read by [read_csv] whatever comes
    before the last dot, and so is a file called just [csv]; the same for
    [json] and [read_json]. The table of the reader is returned as it is,
    and nothing is shown. *)
Theorem process_uploaded_file_reads_by_suffix (file : uploaded_file)
    (df : DataFrame) (s : state World) :
  ((name file = "csv" \/ exists stem, name file = stem ++ ".csv") ->
     read_csv file = Ret df ->
     process_uploaded_file read_csv read_json file s = (Ret (Some df), s))
  /\ ((name file = "json" \/ exists stem, name file = stem ++ ".json") ->
        read_json file = Ret df ->
        process_uploaded_file read_csv read_json file s = (Ret (Some df), s)).
Proof.
  split; intros Hname Hread; rewrite process_uploaded_file_run.
  - assert (E : file_extension file = "csv").
    { unfold file_extension.
      destruct Hname as [-> | (stem & ->)]; [reflexivity |].
      now apply (last_split_suffix "." stem "csv"). }
    now rewrite E, Hread.
  - assert (E : file_extension file = "json").
    { unfold file_extension.
      destruct Hname as [-> | (stem & ->)]; [reflexivity |].
      now apply (last_split_suffix "." stem "json"). }
    now rewrite E, Hread.
Qed.

End IngestReaders.

(** ** Cleaning: what is kept *)

Section KeptRows.
Import Frame.

Lemma cell_eqb_refl (a : cell) : cell_eqb a a = true.
Proof.
  destruct a as [q | s |]; cbn; [| apply String.eqb_refl | reflexivity].
  apply Qeq_bool_iff. reflexivity.
Qed.

Lemma row_eqb_refl (r : row) : row_eqb r r = true.
Proof. induction r as [| a r IH]; cbn; [| rewrite cell_eqb_refl, IH]; reflexivity. Qed.

Lemma cell_eqb_trans (a b c : cell) :
  cell_eqb a b = true -> cell_eqb b c = true -> cell_eqb a c = true.
Proof.
  destruct a as [x | s |], b as [y | t |], c as [z | u |]; cbn; try discriminate;
    try reflexivity.
  - intros H1 H2. apply Qeq_bool_iff in H1, H2. apply Qeq_bool_iff.
    now rewrite H1.
  - intros H1 H2. apply String.eqb_eq in H1, H2. subst. apply String.eqb_refl.
Qed.

Lemma row_eqb_trans (r1 : row) :
  forall r2 r3, row_eqb r1 r2 = true -> row_eqb r2 r3 = true -> row_eqb r1 r3 = true.
Proof.
  induction r1 as [| a r1 IH]; intros [| b r2] [| c r3]; cbn; try discriminate;
    try reflexivity.
  intros H1 H2. apply andb_true_iff in H1, H2.
  destruct H1 as [Hab H1], H2 as [Hbc H2]. apply andb_true_iff. split.
  - eapply cell_eqb_trans; eassumption.
  - eapply IH; eassumption.
Qed.

Lemma duplicated_from_nth (rest : list row) :
  forall seen i, (i < length rest)%nat ->
    nth i (duplicated_from seen rest) false
    = existsb (row_eqb (nth i rest [])) (seen ++ firstn i rest).
Proof.
  induction rest as [| r rest IH]; intros seen i Hi; cbn in Hi; [lia |].
  destruct i as [| i]; cbn [duplicated_from nth firstn].
  - now rewrite app_nil_r.
  - rewrite IH by lia. now rewrite <- app_assoc.
Qed.

Lemma In_firstn (A : Type) (x : A) (l : list A) :
  forall i, In x (firstn i l) <-> exists j, (j < i)%nat /\ nth_error l j = Some x.
Proof.
  induction l as [| y l IH]; intros i.
  - rewrite firstn_nil. split; [contradiction |].
    intros (j & _ & H). destruct j; discriminate.
  - destruct i as [| i]; cbn [firstn].
    + split; [contradiction | intros (j & Hj & _); lia].
    + cbn [In]. rewrite IH. split.
      * intros [-> | (j & Hj & H)]; [exists 0%nat | exists (S j)]; split; auto; lia.
      * intros (j & Hj & H). destruct j as [| j]; cbn in H.
        -- left. congruence.
        -- right. exists j. split; [lia | exact H].
Qed.

(** Every row has an equal row among the kept rows or among the rows seen
    before the scan. *)
Lemma kept_rows_cover (rest : list row) :
  forall seen r, In r rest ->
    (exists k, In k (select (map negb (duplicated_from seen rest)) rest)
               /\ row_eqb r k = true)
    \/ (exists s, In s seen /\ row_eqb r s = true).
Proof.
  induction rest as [| r0 rest IH]; intros seen r Hin; [contradiction |].
  cbn [duplicated_from map select].
  destruct (existsb (row_eqb r0) seen) eqn:E; cbn [negb].
  - (* r0 is dropped: it has an equal in [seen] *)
    apply existsb_exists in E. destruct E as (s0 & Hs0 & E0).
    destruct Hin as [<- | Hin].
    + right. now exists s0.
    + destruct (IH (seen ++ [r0]) r Hin) as [Hk | (s & Hs & Es)]; [now left |].
      right. apply in_app_iff in Hs. destruct Hs as [Hs | [<- | []]].
      * now exists s.
      * exists s0. split; [exact Hs0 |]. eapply row_eqb_trans; eassumption.
  - (* r0 is kept *)
    destruct Hin as [<- | Hin].
    + left. exists r0. split; [now left | apply row_eqb_refl].
    + destruct (IH (seen ++ [r0]) r Hin) as [(k & Hk & Ek) | (s & Hs & Es)].
      * left. exists k. split; [now right | exact Ek].
      * apply in_app_iff in Hs. destruct Hs as [Hs | [<- | []]].
        -- right. now exists s.
        -- left. exists r0. split; [now left | exact Es].
Qed.

Lemma select_nil (A : Type) (mask : list bool) : select mask (@nil A) = [].
Proof. now destruct mask. Qed.

Lemma nth_error_rows (df : DataFrame) (j : nat) (x : row) :
  nth_error (rows df) j = Some x <-> (j < nrows df)%nat /\ x = row_at df j.
Proof.
  split.
  - intros H.
    assert (Hj : (j < nrows df)%nat)
      by (rewrite <- rows_length; apply nth_error_Some; congruence).
    split; [exact Hj |].
    apply nth_error_nth with (d := []) in H. now rewrite nth_rows in H.
  - intros [Hj ->]. rewrite <- nth_rows by exact Hj.
    apply nth_error_nth'. now rewrite rows_length.
Qed.

(** X7. [drop_duplicates] keeps the first of equal rows and the order of the
    rows: a row is dropped exactly when an equal row comes before it, the
    rows of the result are the kept rows in their order, every row of the
    table has an equal row in the result, and a table without equal rows is
    returned as it is. *)
Theorem drop_duplicates_first_occurrences (df : DataFrame) :
  well_formed df -> cols df <> [] ->
  rows (drop_duplicates df) = select (map negb (duplicated df)) (rows df)
  /\ (forall i, (i < nrows df)%nat ->
        (nth i (duplicated df) false = true
         <-> exists j, (j < i)%nat
                       /\ row_eqb (row_at df i) (row_at df j) = true))
  /\ (forall i, (i < nrows df)%nat ->
        exists k, (k < nrows (drop_duplicates df))%nat
                  /\ row_eqb (row_at df i) (row_at (drop_duplicates df) k) = true)
  /\ (distinct_rows df -> drop_duplicates df = df).
Proof.
  intros Hwf Hcols.
  assert (Hrows : rows (drop_duplicates df)
                  = select (map negb (duplicated df)) (rows df)).
  { destruct (empty df) eqn:He; [| now apply rows_drop_duplicates].
    assert (Hz : nrows df = 0%nat).
    { unfold empty in He. apply orb_true_iff in He. destruct He as [He | He].
      - now apply Nat.eqb_eq.
      - destruct (cols df); [congruence | discriminate]. }
    unfold drop_duplicates. rewrite He. unfold rows. rewrite Hz. cbn.
    now rewrite select_nil. }
  split; [exact Hrows |]. split; [| split].
  - intros i Hi. unfold duplicated.
    rewrite duplicated_from_nth by now rewrite rows_length.
    cbn [app]. rewrite nth_rows by exact Hi. rewrite existsb_exists. split.
    + intros (x & Hx & E). apply In_firstn in Hx. destruct Hx as (j & Hj & Hx).
      apply nth_error_rows in Hx. destruct Hx as [_ ->]. now exists j.
    + intros (j & Hj & E). exists (row_at df j). split; [| exact E].
      apply In_firstn. exists j. split; [exact Hj |].
      apply nth_error_rows. split; [lia | reflexivity].
  - intros i Hi.
    assert (Hin : In (row_at df i) (rows df)).
    { rewrite <- nth_rows by exact Hi. apply nth_In. now rewrite rows_length. }
    destruct (kept_rows_cover (rows df) [] _ Hin) as [(k & Hk & E) | (s & [] & _)].
    fold (duplicated df) in Hk. rewrite <- Hrows in Hk.
    apply In_nth_error in Hk. destruct Hk as (n & Hn).
    apply nth_error_rows in Hn. destruct Hn as [Hn ->]. now exists n.
  - now apply drop_duplicates_fixed.
Qed.

End KeptRows.

Section KeptValues.
Import Frame.
Local Open Scope string_scope.

Variable parse_numeric : string -> option (option Q).

Local Notation "'clean'" := (clean_data parse_numeric).

Lemma drop_duplicates_columns (df : DataFrame) :
  columns (drop_duplicates df) = columns df.
Proof.
  unfold drop_duplicates. destruct (empty df); [reflexivity |].
  unfold columns. cbn. rewrite map_map. reflexivity.
Qed.

(** X8. Cleaning never adds, drops, renames or reorders a column, and it keeps
    the columns of equal length. *)
Theorem clean_data_keeps_columns (df : DataFrame) :
  columns (clean df) = columns df
  /\ (well_formed df -> well_formed (clean df)).
Proof.
  split; [| apply clean_data_well_formed].
  rewrite clean_data_columns. unfold columns at 1. cbn.
  rewrite map_map. cbn. apply drop_duplicates_columns.
Qed.

Lemma Forall2_nth_error (A B : Type) (P : A -> B -> Prop) (l : list A) (l' : list B) :
  Forall2 P l l' ->
  forall i x, nth_error l i = Some x ->
    exists y, nth_error l' i = Some y /\ P x y.
Proof.
  induction 1 as [| a b l l' Hab _ IH]; intros i x Hx.
  - destruct i; discriminate.
  - destruct i as [| i]; cbn in *.
    + injection Hx as <-. now exists b.
    + now apply IH.
Qed.

Lemma to_numeric_ignore_keeps_numbers (s : series) (i : nat) (q : Q) :
  nth_error s i = Some (Num q) ->
  nth_error (to_numeric_ignore parse_numeric s) i = Some (Num q).
Proof.
  intros H. unfold to_numeric_ignore.
  pose proof (coerce_all_spec parse_numeric s) as Hspec.
  destruct (coerce_all parse_numeric s) as [s' |]; [| exact H].
  destruct (Forall2_nth_error Hspec _ H) as (y & Hy & E).
  cbn in E. congruence.
Qed.

Lemma fill_series_keeps_numbers (s : series) (i : nat) (q : Q) :
  nth_error s i = Some (Num q) -> nth_error (fill_series s) i = Some (Num q).
Proof.
  intros H. unfold fill_series. destruct (is_number_dtype s); [| exact H].
  destruct (mean s) as [m |]; cbn; [| exact H].
  rewrite nth_error_map, H. reflexivity.
Qed.

Lemma numeric_no_string (s : series) (i : nat) (t : string) :
  is_number_dtype s = true -> nth_error s i <> Some (Str t).
Proof.
  intros Hnum H. apply nth_error_In in H.
  unfold is_number_dtype in Hnum. rewrite forallb_forall in Hnum.
  specialize (Hnum _ H). discriminate.
Qed.

(** X9. Cleaning keeps the length of a column and every number that is there,
    and it does not make up strings: a string of the cleaned column was at
    the same place before. *)
Theorem clean_data_keeps_values (df : DataFrame) (j : nat) :
  let original := column (drop_duplicates df) j in
  let cleaned := column (clean df) j in
  length cleaned = length original
  /\ (forall i q, nth_error original i = Some (Num q) ->
                  nth_error cleaned i = Some (Num q))
  /\ (forall i t, nth_error cleaned i = Some (Str t) ->
                  nth_error original i = Some (Str t)).
Proof.
  intros original cleaned.
  assert (Hcleaned : cleaned = fill_series (to_numeric_ignore parse_numeric original))
    by (subst cleaned original; apply column_clean_data).
  rewrite Hcleaned. split; [| split].
  - now rewrite fill_series_length, to_numeric_ignore_length.
  - intros i q H.
    now apply fill_series_keeps_numbers, to_numeric_ignore_keeps_numbers.
  - intros i t H. unfold fill_series in H.
    destruct (is_number_dtype (to_numeric_ignore parse_numeric original)) eqn:Hnum.
    + exfalso. revert H. apply numeric_no_string.
      now rewrite fillna_is_number_dtype.
    + unfold to_numeric_ignore in *.
      destruct (coerce_all parse_numeric original) as [s' |] eqn:E; [| exact H].
      rewrite (coerce_all_numeric _ _ E) in Hnum. discriminate.
Qed.




End KeptValues.

Section KeptMean.
Import Frame Tally.
Local Open Scope Q_scope.

Lemma inject_nat_succ (k : nat) :
  inject_Z (Z.of_nat (S k)) == inject_Z (Z.of_nat k) + 1.
Proof. rewrite Nat2Z.inj_succ. unfold Z.succ. now rewrite inject_Z_plus. Qed.

Lemma inject_nat_add (n k : nat) :
  inject_Z (Z.of_nat (n + k)) == inject_Z (Z.of_nat n) + inject_Z (Z.of_nat k).
Proof. rewrite Nat2Z.inj_add. now rewrite inject_Z_plus. Qed.

Lemma inject_nat_nonzero (n : nat) : (0 < n)%nat -> ~ inject_Z (Z.of_nat n) == 0.
Proof. intros Hn H. unfold Qeq in H. cbn in H. lia. Qed.

Lemma present_cons (c : cell) (s : series) :
  present (c :: s) = match c with Num q => q :: present s | _ => present s end.
Proof. now destruct c. Qed.

Lemma missing_count_cons (c : cell) (s : series) :
  missing_count (c :: s)
  = match c with Missing => S (missing_count s) | _ => missing_count s end.
Proof. now destruct c. Qed.

(** What filling adds to the sum and to the count of the values. *)
Lemma fillna_total (m : Q) (s : series) :
  total (fillna (Some m) s) == total s + inject_Z (Z.of_nat (missing_count s)) * m
  /\ length (present (fillna (Some m) s))
     = (length (present s) + missing_count s)%nat.
Proof.
  unfold total. cbn [fillna].
  induction s as [| c s [IHsum IHlen]].
  - split; [| reflexivity].
    change (0 == 0 + 0 * m). ring.
  - cbn [map]. rewrite missing_count_cons, !present_cons.
    destruct c as [q | t |]; rewrite ?present_cons; cbn [fold_right length].
    + split; [rewrite IHsum; ring | now rewrite IHlen].
    + split; [exact IHsum | exact IHlen].
    + split; [rewrite IHsum, inject_nat_succ; ring | rewrite IHlen; lia].
Qed.

(** Filling a column with its mean leaves the mean as it was. *)
Lemma fillna_mean (s : series) (m : Q) :
  mean s = Some m ->
  exists m', mean (fillna (Some m) s) = Some m' /\ m' == m.
Proof.
  intros Hm.
  pose proof (mean_spec _ Hm) as Hspec.
  assert (Hn : (0 < length (present s))%nat).
  { destruct (present s) eqn:E; [| cbn; lia].
    apply mean_none in E. congruence. }
  destruct (fillna_total m s) as [Hsum Hlen]. unfold total in Hsum.
  destruct (mean (fillna (Some m) s)) as [m' |] eqn:Em'.
  - exists m'. split; [reflexivity |].
    rewrite (mean_spec _ Em'). rewrite Hsum, Hlen, inject_nat_add.
    set (N := inject_Z (Z.of_nat (length (present s)))) in *.
    set (K := inject_Z (Z.of_nat (missing_count s))).
    set (S := fold_right Qplus 0 (present s)) in *.
    assert (HN : ~ N == 0) by (subst N; now apply inject_nat_nonzero).
    assert (HNK : ~ N + K == 0).
    { subst N K. rewrite <- inject_nat_add. apply inject_nat_nonzero. lia. }
    rewrite Hspec. field. split; assumption.
  - apply mean_none in Em'. rewrite Em' in Hlen. cbn in Hlen. lia.
Qed.

End KeptMean.

Section KeptMeanClaim.
Import Frame.

(** X10. In exact arithmetic, filling the missing values of a numeric column
    with its mean leaves the mean of the column as it was. *)
Theorem clean_data_keeps_mean
    (parse_numeric : string -> option (option Q)) (df : DataFrame) (j : nat) :
  let coerced := column (coerce_columns parse_numeric (drop_duplicates df)) j in
  let cleaned := column (clean_data parse_numeric df) j in
  is_number_dtype coerced = true ->
  forall m, mean coerced = Some m ->
    exists m', mean cleaned = Some m' /\ (m' == m)%Q.
Proof.
  intros coerced cleaned Hnum m Hm.
  assert (Hcleaned : cleaned = fillna (Some m) coerced).
  { subst cleaned coerced.
    rewrite column_clean_data, column_coerce_columns.
    unfold clean_series, fill_series.
    rewrite column_coerce_columns in Hnum, Hm. now rewrite Hnum, Hm. }
  rewrite Hcleaned. now apply fillna_mean.
Qed.

End KeptMeanClaim.

(** ** The script: what a failure stops and what it does not *)

Section MainStages.
Import Py Frame Ui Ingest Submit App Stage.
Local Open Scope script_scope.
Local Open Scope string_scope.

Variable World : Type.
Variable read_csv : uploaded_file -> outcome DataFrame.
Variable read_json : uploaded_file -> outcome DataFrame.
Variable parse_numeric : string -> option (option Q).
Variable http_post : World -> string -> list record -> outcome response * World.
Variable json_error_is_request_exception : bool.
Variable perform_eda : DataFrame -> M World unit.
Variable display_analysis_results : DataFrame -> M World unit.
Variable json_number : Q -> Q.

Local Notation "'run_main'" :=
  (main read_csv read_json parse_numeric http_post
     json_error_is_request_exception perform_eda display_analysis_results
     json_number).
Local Notation "'records_of'" := (to_records json_number).

(** Once the file is read, [main] is its last stages run from the state in
    which both tables are shown. *)
Lemma main_from_shown (file : uploaded_file) (df : DataFrame) (s : state World) :
  (forall s0 : state World,
      process_uploaded_file read_csv read_json file s0 = (Ret (Some df), s0)) ->
  let cleaned := clean_data parse_numeric df in
  run_main (Some file) s
  = (perform_eda cleaned ;;
     display_analysis_results cleaned ;;
     emit (DownloadButton cleaned) ;;
     send_data_in_chunks http_post json_error_is_request_exception
       url (records_of cleaned) 500 ;;
     emit (Success MsgRanSuccessfully)) (shown s df cleaned).
Proof.
  intros Hread cleaned. unfold main.
  unfold bind at 1. unfold emit at 1. unfold bind at 1. unfold emit at 1.
  unfold bind at 1. rewrite Hread.
  do 6 (unfold bind at 1; unfold emit at 1). cbn [world log].
  fold cleaned. unfold shown. rewrite <- !app_assoc. reflexivity.
Qed.

(** X12. When the exploratory analysis or the display of the results raises,
    [main] raises the same exception and does nothing more: the state it
    leaves is the one the failing stage left, so no download button is
    offered, nothing is sent and no success is shown. *)
Theorem main_stops_when_rendering_fails (file : uploaded_file) (df : DataFrame)
    (s : state World) :
  (forall s0 : state World,
      process_uploaded_file read_csv read_json file s0 = (Ret (Some df), s0)) ->
  let cleaned := clean_data parse_numeric df in
  (forall e s1,
      perform_eda cleaned (shown s df cleaned) = (Raise e, s1) ->
      run_main (Some file) s = (Raise e, s1))
  /\ (forall s1 e s2,
        perform_eda cleaned (shown s df cleaned) = (Ret tt, s1) ->
        display_analysis_results cleaned s1 = (Raise e, s2) ->
        run_main (Some file) s = (Raise e, s2)).
Proof.
  intros Hread cleaned. split.
  - intros e s1 Heda. rewrite (main_from_shown file s Hread). fold cleaned.
    unfold bind at 1. now rewrite Heda.
  - intros s1 e s2 Heda Hdisplay. rewrite (main_from_shown file s Hread).
    fold cleaned. unfold bind at 1. rewrite Heda.
    unfold bind at 1. now rewrite Hdisplay.
Qed.

(** X13. When the rendering stages return and the only exceptions of a request
    are those of [requests], [main] returns normally and its last message is
    the success of the application, whatever the endpoint answered: a
    failed submission does not change how the run ends. *)
Theorem main_ends_with_success (file : uploaded_file) (df : DataFrame)
    (s s1 s2 : state World) :
  (forall s0 : state World,
      process_uploaded_file read_csv read_json file s0 = (Ret (Some df), s0)) ->
  let cleaned := clean_data parse_numeric df in
  perform_eda cleaned (shown s df cleaned) = (Ret tt, s1) ->
  display_analysis_results cleaned s1 = (Ret tt, s2) ->
  json_error_is_request_exception = true ->
  (forall w u ch e, fst (http_post w u ch) = Raise e ->
                    is_request_exception json_error_is_request_exception e = true) ->
  exists s3,
    send_data_in_chunks http_post json_error_is_request_exception
      url (records_of cleaned) 500 (offered s2 cleaned) = (Ret tt, s3)
    /\ run_main (Some file) s = (Ret tt, finished s3).
Proof.
  intros Hread cleaned Heda Hdisplay Hjson Hexn.
  destruct (send_data_in_chunks_total http_post url (records_of cleaned)
              (chunk_size := 500) (offered s2 cleaned) Hjson Hexn ltac:(discriminate))
    as (s3 & Hsend).
  exists s3. split; [exact Hsend |].
  rewrite (main_from_shown file s Hread). fold cleaned.
  unfold bind at 1. rewrite Heda. unfold bind at 1. rewrite Hdisplay.
  unfold bind at 1. unfold emit at 1. fold (offered s2 cleaned).
  unfold bind at 1. rewrite Hsend. reflexivity.
Qed.

Lemma chunks_bounded (data : list record) (c : Z) :
  (0 < c)%Z -> Forall (fun ch => (Z.of_nat (length ch) <= c)%Z) (chunks data c).
Proof.
  intros Hc. unfold chunks, range. rewrite map_map. rewrite Forall_map.
  apply Forall_forall. intros i _. rewrite chunk_at_length by lia. lia.
Qed.

(** X14. When nothing fails and every reply is acknowledged, [main] sends
    every row of the cleaned table exactly once, in order, in requests of at
    most 500 records, and ends with the success message. *)
Theorem main_submits_every_cleaned_row (file : uploaded_file) (df : DataFrame)
    (s s1 s2 : state World) :
  (forall s0 : state World,
      process_uploaded_file read_csv read_json file s0 = (Ret (Some df), s0)) ->
  let cleaned := clean_data parse_numeric df in
  perform_eda cleaned (shown s df cleaned) = (Ret tt, s1) ->
  display_analysis_results cleaned s1 = (Ret tt, s2) ->
  (forall w u ch, acknowledged (fst (http_post w u ch)) = true) ->
  exists s3 sent,
    run_main (Some file) s = (Ret tt, finished s3)
    /\ posts (log s3) = (posts (log s2) ++ sent)%list
    /\ concat sent = records_of cleaned
    /\ length (concat sent) = nrows cleaned
    /\ Forall (fun ch => (length ch <= 500)%nat) sent.
Proof.
  intros Hread cleaned Heda Hdisplay Hack.
  destruct (submit_loop_all_acknowledged http_post json_error_is_request_exception
              url (records_of cleaned) 500 (num_chunks (records_of cleaned) 500)
              Hack (range (num_chunks (records_of cleaned) 500))
              (offered s2 cleaned)) as (s3 & Hloop & Hposts).
  assert (Hsend : send_data_in_chunks http_post json_error_is_request_exception
                    url (records_of cleaned) 500 (offered s2 cleaned) = (Ret tt, s3))
    by (rewrite send_data_in_chunks_loop by discriminate; exact Hloop).
  exists s3, (chunks (records_of cleaned) 500).
  split; [| split; [| split; [| split]]].
  - rewrite (main_from_shown file s Hread). fold cleaned.
    unfold bind at 1. rewrite Heda. unfold bind at 1. rewrite Hdisplay.
    unfold bind at 1. unfold emit at 1. fold (offered s2 cleaned).
    unfold bind at 1. rewrite Hsend. reflexivity.
  - rewrite Hposts. unfold offered, posts. cbn [log].
    rewrite flat_map_app. cbn. now rewrite app_nil_r.
  - apply chunks_concat. reflexivity.
  - rewrite chunks_concat by reflexivity.
    unfold to_records. now rewrite length_map, rows_length.
  - eapply Forall_impl; [| apply (@chunks_bounded (records_of cleaned) 500 eq_refl)].
    intros ch Hch. cbn beta in Hch. lia.
Qed.

End MainStages.

(** ** The analyses: missing columns, and what the renewable split counts *)

Section ColumnLookup.
Import Py Frame Tally Aggregate.
Local Open Scope string_scope.

Lemma getitem_missing (df : DataFrame) (label : string) :
  has_column df label = false -> getitem df label = Raise (KeyError label).
Proof.
  unfold has_column, getitem, columns.
  induction (cols df) as [| c cs IH]; cbn; [reflexivity |].
  destruct (String.eqb label (fst c)); cbn; [discriminate | exact IH].
Qed.

Lemma getitem_present (df : DataFrame) (label : string) :
  has_column df label = true -> exists c, getitem df label = Ret c.
Proof.
  unfold has_column, getitem, columns.
  induction (cols df) as [| c cs IH]; cbn; [discriminate |].
  destruct (String.eqb label (fst c)); cbn; [now exists (snd c) | exact IH].
Qed.

Lemma getitem_In (df : DataFrame) (label : string) (c : series) :
  getitem df label = Ret c -> In (label, c) (cols df).
Proof.
  unfold getitem.
  destruct (find (fun c => String.eqb label (fst c)) (cols df)) as [[l s] |] eqn:E;
    [| discriminate].
  intros H. injection H as <-. apply find_some in E. destruct E as [Hin E].
  cbn in E. apply String.eqb_eq in E. now subst.
Qed.

Lemma getitem_length (df : DataFrame) (label : string) (c : series) :
  well_formed df -> getitem df label = Ret c -> length c = nrows df.
Proof.
  intros Hwf H. apply getitem_In in H.
  unfold well_formed in Hwf. rewrite Forall_forall in Hwf.
  exact (Hwf _ H).
Qed.

Lemma getitem_loc (df : DataFrame) (mask : list bool) (label : string) :
  getitem (loc df mask) label
  = match getitem df label with
    | Ret c => Ret (select mask c)
    | Raise e => Raise e
    end.
Proof.
  unfold getitem, loc. cbn [cols].
  induction (cols df) as [| [l col] cs IH]; [reflexivity |].
  cbn [map find fst snd].
  destruct (String.eqb label l); [reflexivity | exact IH].
Qed.

(** A [groupby] on a table that lacks one of its keys or its value column
    raises [KeyError]. *)
Lemma grouped_column_missing (df : DataFrame) (keys : list string)
    (value label : string) :
  In label (keys ++ [value]) -> has_column df label = false ->
  exists k, grouped_column df keys value = Raise (KeyError k).
Proof.
  intros Hin Hmiss. unfold grouped_column.
  assert (Hkeys : (exists k, key_columns df keys = Raise (KeyError k))
                  \/ ((exists cs, key_columns df keys = Ret cs) /\ ~ In label keys)).
  { clear Hin. induction keys as [| key rest IH]; cbn.
    - right. split; [now exists [] | easy].
    - destruct (has_column df key) eqn:Hkey.
      + destruct (getitem_present df key Hkey) as (c & ->). cbn.
        destruct IH as [(k & ->) | ((cs & ->) & Hnot)]; cbn.
        * left. now exists k.
        * right. split; [now eexists |].
          intros [-> | H]; [congruence | contradiction].
      + left. rewrite (getitem_missing df key Hkey). cbn. now exists key. }
  destruct Hkeys as [(k & ->) | ((cs & ->) & Hnot)]; cbn; [now exists k |].
  apply in_app_iff in Hin. destruct Hin as [Hin | [<- | []]]; [contradiction |].
  unfold value_column. rewrite (getitem_missing df value Hmiss). cbn.
  now eexists.
Qed.

End ColumnLookup.

Section AnalysesNeedColumns.
Import Py Frame Tally Aggregate.
Local Open Scope string_scope.

Variable grouped : Type.
Variable group_sum : list series -> series -> outcome grouped.
Variable group_mean_unstack : list series -> series -> outcome grouped.
Variable sort_values_descending : grouped -> outcome grouped.
Variable numeric_sum : series -> cell.
Variable object_sum : series -> outcome cell.

Lemma sum_by_missing (df : DataFrame) (keys : list string) (value label : string) :
  In label (keys ++ [value]) -> has_column df label = false ->
  exists k, sum_by group_sum df keys value = Raise (KeyError k).
Proof.
  intros Hin Hmiss. unfold sum_by.
  destruct (grouped_column_missing df keys value label Hin Hmiss) as (k & ->).
  now exists k.
Qed.

Lemma production_of_missing (df : DataFrame) (kind label : string) :
  In label ["energy_source_type"; "production_volume"] ->
  has_column df label = false ->
  exists k, production_of numeric_sum object_sum df kind = Raise (KeyError k).
Proof.
  intros Hin Hmiss. unfold production_of.
  destruct (has_column df "energy_source_type") eqn:Htype.
  - destruct (getitem_present df _ Htype) as (t & ->). cbn.
    destruct Hin as [<- | [<- | []]]; [congruence |].
    rewrite (getitem_missing df _ Hmiss). cbn. now eexists.
  - rewrite (getitem_missing df _ Htype). cbn. now eexists.
Qed.

(** X15. Every analysis raises on a table that lacks a column it reads: a
    [KeyError], unless the first half of one of the two double analyses has
    raised already. None returns a result. *)
Theorem analyses_need_their_columns (df : DataFrame) (label : string) :
  has_column df label = false ->
  (In label ["energy_source"; "production_volume"] ->
     exists k, calculate_production_volumes group_sum df = Raise (KeyError k))
  /\ (In label ["region"; "sector"; "consumption_volume"] ->
        exists k, analyze_consumption_patterns group_sum df = Raise (KeyError k))
  /\ (In label ["energy_source"; "production_volume"] ->
        exists k, identify_major_energy_sources group_sum sort_values_descending df
                  = Raise (KeyError k))
  /\ (label = "consumption_volume" ->
        exists e, identify_major_energy_sources group_sum sort_values_descending df
                  = Raise e)
  /\ (In label ["country"; "import_volume"] ->
        exists k, analyze_import_export_dynamics group_sum sort_values_descending df
                  = Raise (KeyError k))
  /\ (label = "export_volume" ->
        exists e, analyze_import_export_dynamics group_sum sort_values_descending df
                  = Raise e)
  /\ (In label ["date"; "energy_source"; "price"] ->
        exists k, calculate_price_trends group_mean_unstack df = Raise (KeyError k))
  /\ (In label ["energy_source_type"; "production_volume"] ->
        exists k, compare_renewable_nonrenewable numeric_sum object_sum df = Raise (KeyError k))
  /\ (forall event_column, In label [event_column; "trade_volume"] ->
        exists k, assess_geopolitical_impact group_sum df event_column
                  = Raise (KeyError k)).
Proof.
  intros Hmiss.
  assert (Hdouble : forall key first second,
    (In label [key; first] ->
       exists k,
         (production <- (sums <- sum_by group_sum df [key] first ;;
                         sort_values_descending sums) ;;
          consumption <- (sums <- sum_by group_sum df [key] second ;;
                          sort_values_descending sums) ;;
          Ret (production, consumption))%outcome = Raise (KeyError k))
    /\ (label = second ->
          exists e,
            (production <- (sums <- sum_by group_sum df [key] first ;;
                            sort_values_descending sums) ;;
             consumption <- (sums <- sum_by group_sum df [key] second ;;
                             sort_values_descending sums) ;;
             Ret (production, consumption))%outcome = Raise e)).
  { intros key first second. split.
    - intros Hin. destruct (sum_by_missing df [key] first label Hin Hmiss) as (k & ->).
      now exists k.
    - intros ->.
      destruct (sum_by_missing df [key] second second
                  ltac:(cbn; auto) Hmiss) as (k & Hk).
      destruct (sum_by group_sum df [key] first) as [sums | e]; cbn;
        [| now exists e].
      destruct (sort_values_descending sums) as [production | e]; cbn;
        [| now exists e].
      rewrite Hk. cbn. now eexists. }
  repeat split.
  - intros Hin. now apply (sum_by_missing df ["energy_source"] "production_volume" label).
  - intros Hin.
    now apply (sum_by_missing df ["region"; "sector"] "consumption_volume" label).
  - apply (Hdouble "energy_source" "production_volume" "consumption_volume").
  - apply (Hdouble "energy_source" "production_volume" "consumption_volume").
  - apply (Hdouble "country" "import_volume" "export_volume").
  - apply (Hdouble "country" "import_volume" "export_volume").
  - intros Hin. unfold calculate_price_trends.
    destruct (grouped_column_missing df ["date"; "energy_source"] "price" label Hin Hmiss)
      as (k & ->).
    now exists k.
  - intros Hin. unfold compare_renewable_nonrenewable.
    destruct (@production_of_missing df "renewable" label Hin Hmiss) as (k & ->).
    now exists k.
  - intros event_column Hin.
    now apply (sum_by_missing df [event_column] "trade_volume" label).
Qed.

End AnalysesNeedColumns.

Section RenewableSplit.
Import Py Frame Tally Aggregate.
Local Open Scope string_scope.

Variable numeric_sum : series -> cell.
Variable object_sum : series -> outcome cell.

Local Notation "'compare'" :=
  (compare_renewable_nonrenewable numeric_sum object_sum).

Lemma select_numeric (mask : list bool) (s : series) :
  is_number_dtype s = true -> is_number_dtype (select mask s) = true.
Proof.
  unfold is_number_dtype. rewrite !forallb_forall.
  intros H c Hc. apply H. eapply select_In. exact Hc.
Qed.

(** What the mask of a kind selects is what the specification names. *)
Lemma select_equals (kind : string) (types : series) :
  forall values : series, length types = length values ->
    select (equals types kind) values = volumes_of_kind kind types values.
Proof.
  unfold volumes_of_kind.
  induction types as [| c types IH]; intros [| x values] Hlen;
    cbn in Hlen; try lia; [reflexivity |].
  cbn [equals map select combine filter fst].
  fold (equals types kind).
  destruct (match c with Str t => String.eqb t kind | _ => false end);
    cbn [map snd]; rewrite IH by lia; reflexivity.
Qed.

(** Selecting a kind among the counted rows selects the same values as
    selecting it among all rows. *)
Lemma select_counted (kind : string) (types : series) :
  (forall c, match c with Str t => String.eqb t kind | _ => false end = true ->
             counted c = true) ->
  forall values : series, length types = length values ->
    select (equals (select (map counted types) types) kind)
      (select (map counted types) values)
    = select (equals types kind) values.
Proof.
  intros Hkind. induction types as [| c types IH]; intros [| x values] Hlen;
    cbn in Hlen; try lia; [reflexivity |].
  cbn [map select equals].
  destruct (counted c) eqn:Ec.
  - cbn [equals map select]. fold (equals (select (map counted types) types) kind).
    fold (equals types kind). rewrite IH by lia. reflexivity.
  - fold (equals types kind).
    assert (E : match c with Str t => String.eqb t kind | _ => false end = false).
    { destruct (match c with Str t => String.eqb t kind | _ => false end) eqn:E;
        [| reflexivity].
      rewrite (Hkind c E) in Ec. discriminate. }
    rewrite E. apply IH. lia.
Qed.

Lemma production_of_numeric (df : DataFrame) (kind : string) (types volumes : series) :
  getitem df "energy_source_type" = Ret types ->
  getitem df "production_volume" = Ret volumes ->
  is_number_dtype volumes = true ->
  production_of numeric_sum object_sum df kind
  = Ret (numeric_sum (select (equals types kind) volumes)).
Proof.
  intros Ht Hv Hnum. unfold production_of.
  rewrite Ht. cbn [and_then]. rewrite Hv. cbn [and_then].
  rewrite getitem_loc, Hv. cbn [and_then].
  unfold series_sum. now rewrite Hnum.
Qed.

Lemma volumes_of_kind_none (types : series) (kind : string) (values : series) :
  (forall c, In c types -> c <> Str kind) ->
  volumes_of_kind kind types values = [].
Proof.
  unfold volumes_of_kind.
  revert values. induction types as [| c types IH]; intros values Hnone;
    [reflexivity |].
  destruct values as [| x values]; [reflexivity |].
  cbn [combine filter fst].
  assert (E : match c with Str t => String.eqb t kind | _ => false end = false).
  { destruct c as [q | t |]; try reflexivity.
    apply String.eqb_neq. intros ->. apply (Hnone (Str kind)); [now left | reflexivity]. }
  rewrite E. apply IH. intros c' Hc'. apply Hnone. now right.
Qed.

(** X16. On a well-formed table that has the column of the types and a
    numeric production column, the renewable split does not raise: its two
    results are the sums, as pandas adds a numeric column, of the production
    volumes of the rows whose type is exactly [renewable] and of those whose
    type is exactly [non_renewable]. Without the rows of any other type the
    results are the same, and when no row is [renewable] the first result is
    the sum of no value. *)
Theorem compare_renewable_nonrenewable_counts (df : DataFrame)
    (types volumes : series) :
  well_formed df ->
  getitem df "energy_source_type" = Ret types ->
  getitem df "production_volume" = Ret volumes ->
  is_number_dtype volumes = true ->
  compare df
  = Ret (numeric_sum (volumes_of_kind "renewable" types volumes),
         numeric_sum (volumes_of_kind "non_renewable" types volumes))
  /\ compare (loc df (map counted types)) = compare df
  /\ ((forall c, In c types -> c <> Str "renewable") ->
        exists n, compare df = Ret (numeric_sum [], n)).
Proof.
  intros Hwf Ht Hv Hnum.
  assert (Hlen : length types = length volumes)
    by (rewrite (@getitem_length df _ _ Hwf Ht), (@getitem_length df _ _ Hwf Hv);
        reflexivity).
  assert (Hmasks : compare df
    = Ret (numeric_sum (select (equals types "renewable") volumes),
           numeric_sum (select (equals types "non_renewable") volumes))).
  { unfold compare_renewable_nonrenewable.
    rewrite (@production_of_numeric df "renewable" _ _ Ht Hv Hnum).
    now rewrite (@production_of_numeric df "non_renewable" _ _ Ht Hv Hnum). }
  assert (Hresult : compare df
    = Ret (numeric_sum (volumes_of_kind "renewable" types volumes),
           numeric_sum (volumes_of_kind "non_renewable" types volumes)))
    by (rewrite Hmasks, !select_equals by exact Hlen; reflexivity).
  split; [exact Hresult |]. split.
  - rewrite Hmasks. unfold compare_renewable_nonrenewable.
    assert (Ht' : getitem (loc df (map counted types)) "energy_source_type"
                  = Ret (select (map counted types) types))
      by now rewrite getitem_loc, Ht.
    assert (Hv' : getitem (loc df (map counted types)) "production_volume"
                  = Ret (select (map counted types) volumes))
      by now rewrite getitem_loc, Hv.
    rewrite (@production_of_numeric _ "renewable" _ _ Ht' Hv'
               (@select_numeric _ _ Hnum)).
    rewrite (@production_of_numeric _ "non_renewable" _ _ Ht' Hv'
               (@select_numeric _ _ Hnum)).
    cbn [and_then].
    rewrite !select_counted; try exact Hlen; try reflexivity.
    + intros [q | t |] H; try discriminate. cbn. rewrite H. apply orb_true_r.
    + intros [q | t |] H; try discriminate. cbn. now rewrite H.
  - intros Hnone. rewrite Hresult.
    rewrite (@volumes_of_kind_none types "renewable" volumes Hnone). now eexists.
Qed.

End RenewableSplit.

(** ** Examples for the further properties *)

Section FurtherExamples.
Import Py Frame Tally Ui Ingest Submit Report App Stage Aggregate.
Local Open Scope string_scope.

Lemma send_data_in_chunks_nothing_to_send_witness :
  send_data_in_chunks Scripted.http_post true url (Scripted.records 3) (-2)
    (Scripted.start [Scripted.ok])
  = (Ret tt, Scripted.start [Scripted.ok])
  /\ send_data_in_chunks Scripted.http_post true url [] 500
       (Scripted.start [Scripted.ok])
     = (Ret tt, Scripted.start [Scripted.ok])
  /\ send_data_in_chunks Scripted.http_post true url (Scripted.records 3) 0
       (Scripted.start [Scripted.ok])
     = (Raise ZeroDivisionError, Scripted.start [Scripted.ok]).
Proof.
  split; [| split].
  - apply (proj1 (proj2 (send_data_in_chunks_nothing_to_send
                           Scripted.http_post true url (Scripted.records 3) (-2)
                           (Scripted.start [Scripted.ok])))).
    reflexivity.
  - apply (proj2 (proj2 (send_data_in_chunks_nothing_to_send
                           Scripted.http_post true url [] 500
                           (Scripted.start [Scripted.ok])))).
    + discriminate.
    + reflexivity.
  - apply (proj1 (send_data_in_chunks_nothing_to_send
                    Scripted.http_post true url (Scripted.records 3) 0
                    (Scripted.start [Scripted.ok]))).
    reflexivity.
Defined.

Lemma chunks_single_witness :
  chunks (Scripted.records 3) 500 = [Scripted.records 3].
Proof.
  apply chunks_single; [discriminate |]. vm_compute. discriminate.
Defined.

Lemma send_data_in_chunks_returns_witness :
  exists s', send_data_in_chunks Scripted.refusing_post true url
               (Scripted.records 3) 2 {| world := tt; log := [] |} = (Ret tt, s').
Proof.
  apply send_data_in_chunks_returns.
  - reflexivity.
  - intros w u ch e H. cbn in H. injection H as <-. reflexivity.
  - discriminate.
Defined.

Lemma send_post_request_status_witness :
  send_post_request Scripted.http_post true url [Scripted.a_record 0]
    (Scripted.start [Scripted.reply 404 (Some (JBool true))])
  = (Ret JNull,
     {| world := [];
        log := [Post url [Scripted.a_record 0];
                Error (MsgRequestError (HTTPError 404))] |})
  /\ send_post_request Scripted.http_post true url [Scripted.a_record 0]
       (Scripted.start [Scripted.reply 302 (Some (JBool true))])
     = (Ret (JBool true),
        {| world := []; log := [Post url [Scripted.a_record 0]] |}).
Proof.
  split.
  - apply (proj1 (@send_post_request_status Scripted.World Scripted.http_post true
                    url [Scripted.a_record 0]
                    (Scripted.start [Scripted.reply 404 (Some (JBool true))])
                    {| status_code := 404; body := Some (JBool true) |} []
                    eq_refl)).
    cbn. lia.
  - apply (proj2 (@send_post_request_status Scripted.World Scripted.http_post true
                    url [Scripted.a_record 0]
                    (Scripted.start [Scripted.reply 302 (Some (JBool true))])
                    {| status_code := 302; body := Some (JBool true) |} []
                    eq_refl)).
    + left. cbn. lia.
    + reflexivity.
Defined.

Lemma process_uploaded_file_reads_by_suffix_witness :
  process_uploaded_file Sample.one_cell_reader Sample.rejecting_reader
    {| name := "trade.2024.csv"; content := "price" |} (Scripted.start [])
  = (Ret (Some {| nrows := 1; cols := [("price", [Num 1%Q])] |}), Scripted.start []).
Proof.
  apply (proj1 (process_uploaded_file_reads_by_suffix
                  Sample.one_cell_reader Sample.rejecting_reader
                  {| name := "trade.2024.csv"; content := "price" |}
                  {| nrows := 1; cols := [("price", [Num 1%Q])] |}
                  (Scripted.start []))).
  - right. exists "trade.2024". reflexivity.
  - reflexivity.
Defined.

Lemma drop_duplicates_first_occurrences_witness :
  rows (drop_duplicates Sample.mixed)
  = [[Str "solar"; Str "100"]; [Str "wind"; Str "50"]; [Str "coal"; Str ""]]
  /\ nth 2 (duplicated Sample.mixed) false = true.
Proof.
  destruct (drop_duplicates_first_occurrences sample_mixed_well_formed
              ltac:(discriminate)) as (Hrows & Hdup & _ & _).
  split.
  - rewrite Hrows. reflexivity.
  - apply (Hdup 2%nat); [cbn; lia |]. exists 0%nat. split; [lia | reflexivity].
Defined.

Lemma clean_data_keeps_columns_witness :
  columns (clean_data parse_decimal Sample.mixed)
  = ["energy_source"; "production_volume"]
  /\ well_formed (clean_data parse_decimal Sample.mixed).
Proof.
  destruct (clean_data_keeps_columns parse_decimal Sample.mixed) as [Hcols Hwf].
  split; [rewrite Hcols; reflexivity | exact (Hwf sample_mixed_well_formed)].
Defined.

Lemma clean_data_keeps_values_witness :
  nth_error (column (clean_data parse_decimal Sample.one_two_missing) 0) 1
  = Some (Num 2).
Proof.
  destruct (clean_data_keeps_values parse_decimal Sample.one_two_missing 0)
    as (_ & Hnum & _).
  apply Hnum. reflexivity.
Defined.


Lemma clean_data_keeps_mean_witness :
  exists m',
    mean (column (clean_data parse_decimal Sample.one_two_missing) 0) = Some m'
    /\ (m' == 3 # 2)%Q.
Proof.
  apply (clean_data_keeps_mean parse_decimal Sample.one_two_missing 0);
    reflexivity.
Defined.

Lemma sample_csv_read (s0 : state unit) :
  process_uploaded_file Sample.one_cell_reader Sample.rejecting_reader
    {| name := "trade.csv"; content := "price" |} s0
  = (Ret (Some {| nrows := 1; cols := [("price", [Num 1%Q])] |}), s0).
Proof. rewrite process_uploaded_file_run. reflexivity. Defined.

Lemma main_stops_when_rendering_fails_witness :
  posts (log (snd (main Sample.one_cell_reader Sample.rejecting_reader parse_decimal
                     Scripted.obliging_post true Sample.quiet Sample.failing
                     Sample.ten_decimals (Some {| name := "trade.csv"; content := "price" |})
                     {| world := tt; log := [] |})))
  = []
  /\ fst (main Sample.one_cell_reader Sample.rejecting_reader parse_decimal
            Scripted.obliging_post true Sample.quiet Sample.failing
            Sample.ten_decimals (Some {| name := "trade.csv"; content := "price" |})
            {| world := tt; log := [] |})
     = Raise (KeyError "energy_source").
Proof.
  destruct (main_stops_when_rendering_fails
              Sample.one_cell_reader Sample.rejecting_reader parse_decimal
              Scripted.obliging_post true Sample.quiet Sample.failing
              Sample.ten_decimals
              {| name := "trade.csv"; content := "price" |}
              {| world := tt; log := [] |} sample_csv_read) as [_ Hdisplay].
  rewrite (Hdisplay _ (KeyError "energy_source") _ eq_refl eq_refl).
  split; reflexivity.
Defined.

Lemma main_ends_with_success_witness :
  let run := main Sample.one_cell_reader Sample.rejecting_reader parse_decimal
               Scripted.refusing_post true Sample.quiet Sample.quiet
               Sample.ten_decimals (Some {| name := "trade.csv"; content := "price" |})
               {| world := tt; log := [] |} in
  fst run = Ret tt
  /\ In (Error (MsgChunkFailed 1 1)) (log (snd run))
  /\ last (log (snd run)) (Markdown "") = Success MsgRanSuccessfully.
Proof.
  destruct (main_ends_with_success
              Sample.one_cell_reader Sample.rejecting_reader parse_decimal
              Scripted.refusing_post Sample.quiet Sample.quiet
              Sample.ten_decimals
              {| name := "trade.csv"; content := "price" |}
              (json_error_is_request_exception := true)
              {| world := tt; log := [] |} sample_csv_read
              eq_refl eq_refl eq_refl)
    as (s3 & Hsend & Hmain).
  - intros w u ch e H. cbn in H. injection H as <-. reflexivity.
  - cbv zeta. rewrite Hmain. vm_compute in Hsend. injection Hsend as <-.
    split; [reflexivity |]. split; [| reflexivity].
    cbn. do 11 right. left. reflexivity.
Defined.

Lemma analyses_need_their_columns_witness :
  exists k,
    analyze_consumption_patterns (fun _ _ => Ret tt) Sample.plain
    = Raise (KeyError k).
Proof.
  destruct (analyses_need_their_columns (fun _ _ => Ret tt) (fun _ _ => Ret tt)
              (fun g : unit => Ret g) exact_sum (fun _ => Ret Missing)
              Sample.plain "sector" eq_refl) as (_ & Hconsumption & _).
  apply Hconsumption. right. now left.
Defined.

Lemma sample_typed_well_formed : well_formed Sample.typed.
Proof. repeat constructor. Defined.

Lemma compare_renewable_nonrenewable_counts_witness :
  compare_renewable_nonrenewable exact_sum (fun _ => Ret Missing) Sample.typed
  = Ret (Num 10, Num 20)
  /\ compare_renewable_nonrenewable exact_sum (fun _ => Ret Missing)
       (loc Sample.typed [true; true; false; false])
     = Ret (Num 10, Num 20).
Proof.
  destruct (compare_renewable_nonrenewable_counts exact_sum (fun _ => Ret Missing)
              sample_typed_well_formed
              (types := [Str "renewable"; Str "non_renewable"; Str "Renewable"; Missing])
              (volumes := [Num 10%Q; Num 20%Q; Num 40%Q; Num 80%Q])
              eq_refl eq_refl eq_refl) as (Hresult & Hsame & _).
  split; [exact Hresult |].
  etransitivity; [exact Hsame | exact Hresult].
Defined.

End FurtherExamples.

Section MainSubmissionExample.
Import Py Frame Ui Ingest Submit App Stage.
Local Open Scope string_scope.

Lemma main_submits_every_cleaned_row_witness :
  concat (posts (log (snd (main Sample.one_cell_reader Sample.rejecting_reader
                             parse_decimal Scripted.obliging_post true
                             Sample.quiet Sample.quiet Sample.ten_decimals
                             (Some {| name := "trade.csv"; content := "price" |})
                             {| world := tt; log := [] |}))))
  = [[("price", Num 1%Q)]].
Proof.
  destruct (main_submits_every_cleaned_row
              Sample.one_cell_reader Sample.rejecting_reader parse_decimal
              Scripted.obliging_post true Sample.quiet Sample.quiet
              Sample.ten_decimals
              {| name := "trade.csv"; content := "price" |}
              {| world := tt; log := [] |} sample_csv_read eq_refl eq_refl)
    as (s3 & sent & Hmain & Hposts & Hconcat & _).
  - intros w u ch. reflexivity.
  - rewrite Hmain. unfold finished, posts in *. cbn [snd log].
    rewrite flat_map_app. cbn [flat_map]. rewrite app_nil_r.
    rewrite Hposts. cbn [log flat_map app]. exact Hconcat.
Defined.

End MainSubmissionExample.
